(** * does_it_shred: barcode digits to guitar tablature

    A shallow embedding of [src/barcode_to_tab.py] (class [BarcodeToTab]
    with its two note generators, the tab renderer and the [convert]
    facade) and the properties its specification states about it.

    Python values are modelled as follows.
    - [int] is unbounded: [Z].
    - [str] is a sequence of Unicode code points: [list N].
    - A raised exception is the [Raise] outcome of the [result] type; the
      text sent to standard output by [print] is the state of the [IO]
      monad.
    - [list] indexing follows Python: a negative index counts from the
      end, an index out of range raises [IndexError].
    - [str] of an [int] follows CPython 3.11: it raises [ValueError] on
      more than 4300 digits.
    - Memory is not bounded: no [MemoryError] is modelled.

    The methods are embedded twice.  The first embedding takes and
    returns lists as values; the generators and the renderer are studied
    on it.  The second keeps the list objects of the program in a store
    and the attributes of the converter in the state; it is proved to
    return what the first returns, and it is where what a call leaves
    behind for the next one is stated. *)

From Stdlib Require Import ZArith NArith List Bool Lia.
From Stdlib Require Import Ascii String DecimalString.
From stdpp Require Import base list.
From Equations Require Import Equations.
Import ListNotations.

#[local] Open Scope Z_scope.

(** ** Python outcomes *)

Inductive exn : Type :=
| ValueError
| IndexError
| ZeroDivisionError
| TypeError
| AttributeError.

Inductive result (A : Type) : Type :=
| Ok (a : A)
| Raise (e : exn).

Arguments Ok {A} a.
Arguments Raise {A} e.

Definition rbind {A B : Type} (c : result A) (k : A -> result B) : result B :=
  match c with
  | Ok a => k a
  | Raise e => Raise e
  end.

Declare Scope py_scope.
Delimit Scope py_scope with py.

Notation "x <- c ;; k" := (rbind c (fun x => k))
  (at level 100, c at next level, right associativity) : py_scope.

#[local] Open Scope py_scope.

(** ** Python strings *)

(** A character is its Unicode code point. *)
Definition char : Type := N.
Abbreviation pystr := (list char).

(** An ASCII literal of the source, as a Python string. *)
Definition lit (s : String.string) : pystr :=
  List.map N_of_ascii (list_ascii_of_string s).

(** [sep.join(parts)]. *)
Fixpoint join (sep : pystr) (parts : list pystr) : pystr :=
  match parts with
  | [] => []
  | [p] => p
  | p :: rest => p ++ sep ++ join sep rest
  end.

(** The decimal text of an [int], with a leading minus sign for a negative
    number and no leading zeros. *)
Definition decimal_text (n : Z) : pystr :=
  lit (NilZero.string_of_int (Z.to_int n)).

(** ** The Unicode character database behind [str.isdigit] and [int]

    CPython's [str.isdigit] holds of a character whose Numeric_Type is
    Digit or Decimal; [int] accepts only those of Numeric_Type Decimal
    (general category Nd).  The tables below are those of Unicode 14.0.0
    (CPython 3.11). *)

(** First code point of every run of ten decimal digits (values 0 to 9 in
    code point order). *)
Definition decimal_runs : list N :=
  [48; 1632; 1776; 1984; 2406; 2534; 2662; 2790; 2918; 3046; 3174; 3302;
   3430; 3558; 3664; 3792; 3872; 4160; 4240; 6112; 6160; 6470; 6608; 6784;
   6800; 6992; 7088; 7232; 7248; 42528; 43216; 43264; 43472; 43504; 43600;
   44016; 65296; 66720; 68912; 69734; 69872; 69942; 70096; 70384; 70736;
   70864; 71248; 71360; 71472; 71904; 72016; 72784; 73040; 73120; 92768;
   92864; 93008; 120782; 120792; 120802; 120812; 120822; 123200; 123632;
   125264; 130032]%N.

(** Runs (first code point, length) of the characters of Numeric_Type
    Digit that are not decimal: superscripts and subscripts, circled and
    parenthesised digits, dingbats, Ethiopic, Kharoshthi, Rumi, Brahmi. *)
Definition digit_only_runs : list (N * N) :=
  [(178, 2); (185, 1); (4969, 9); (6618, 1); (8304, 1); (8308, 6);
   (8320, 10); (9312, 9); (9332, 9); (9352, 9); (9450, 1); (9461, 9);
   (9471, 1); (10102, 9); (10112, 9); (10122, 9); (68160, 4); (69216, 9);
   (69714, 9); (127232, 11)]%N.

Definition in_run (c : char) (run : N * N) : bool :=
  ((fst run <=? c) && (c <? fst run + snd run))%N.

(** The decimal value of a character of category Nd. *)
Definition to_decimal (c : char) : option Z :=
  match List.find (fun start => in_run c (start, 10%N)) decimal_runs with
  | Some start => Some (Z.of_N (c - start))
  | None => None
  end.

(** [c.isdecimal()] *)
Definition isdecimal (c : char) : bool :=
  match to_decimal c with Some _ => true | None => false end.

(** [c.isdigit()] *)
Definition isdigit (c : char) : bool :=
  isdecimal c || List.existsb (in_run c) digit_only_runs.

(** [int(c)] for a string [c] of one character. *)
Definition int (c : char) : result Z :=
  match to_decimal c with
  | Some v => Ok v
  | None => Raise ValueError
  end.

(** ** Python arithmetic and sequences *)

(** [a % b]: the sign of the result follows the divisor. *)
Definition py_mod (a b : Z) : result Z :=
  if b =? 0 then Raise ZeroDivisionError else Ok (a mod b).

(** [len(l)] *)
Definition len {A : Type} (l : list A) : Z := Z.of_nat (length l).

(** [sys.int_max_str_digits], which nothing in the program changes: the
    most decimal digits CPython 3.11 converts between [int] and [str]. *)
Definition int_max_str_digits : Z := 4300.

(** The number of decimal digits of an [int], its sign left out. *)
Definition num_digits (n : Z) : Z := len (decimal_text (Z.abs n)).

(** [str(n)] for an [int]: its decimal text, or [ValueError] when it has
    more digits than the limit. *)
Definition str (n : Z) : result pystr :=
  if num_digits n <=? int_max_str_digits then Ok (decimal_text n)
  else Raise ValueError.

(** The position a Python index denotes: negative indices count from the
    end; [None] when it falls outside the list. *)
Definition py_index {A : Type} (l : list A) (i : Z) : option nat :=
  let j := if i <? 0 then i + len l else i in
  if (0 <=? j) && (j <? len l) then Some (Z.to_nat j) else None.

(** [l[i]] *)
Definition getitem {A : Type} (l : list A) (i : Z) : result A :=
  match py_index l i with
  | Some j =>
      match l !! j with
      | Some x => Ok x
      | None => Raise IndexError
      end
  | None => Raise IndexError
  end.

(** [l[i] = x] *)
Definition setitem {A : Type} (l : list A) (i : Z) (x : A) : result (list A) :=
  match py_index l i with
  | Some j => Ok (<[j := x]> l)
  | None => Raise IndexError
  end.

(** [sum(l)] *)
Definition sum (l : list Z) : Z := List.fold_left Z.add l 0.

(** ** The data model *)

Inductive ScaleMode : Type :=
| MINOR_PENTATONIC
| NATURAL_MINOR
| HARMONIC_MINOR
| CHROMATIC
| POWER_CHORD.

(** [mode.value] *)
Definition value (m : ScaleMode) : pystr :=
  match m with
  | MINOR_PENTATONIC => lit "minor_pentatonic"
  | NATURAL_MINOR => lit "natural_minor"
  | HARMONIC_MINOR => lit "harmonic_minor"
  | CHROMATIC => lit "chromatic"
  | POWER_CHORD => lit "power_chord"
  end.

Record GuitarNote : Type := mkNote {
  string_ : Z;
  fret : Z;
  duration : Z
}.

(** The class attribute [SCALES]. *)
Definition SCALES (m : ScaleMode) : list Z :=
  match m with
  | MINOR_PENTATONIC => [0; 3; 5; 7; 10]
  | NATURAL_MINOR => [0; 2; 3; 5; 7; 8; 10]
  | HARMONIC_MINOR => [0; 2; 3; 5; 7; 8; 11]
  | CHROMATIC => List.map Z.of_nat (seq 0 13)
  | POWER_CHORD => [0; 7]
  end.

(** An instance of [BarcodeToTab]. *)
Record BarcodeToTab : Type := mkSelf {
  root_note : pystr;
  root_fret : Z;
  scale_mode : ScaleMode;
  scale : list Z
}.

(** [BarcodeToTab.__init__] *)
Definition init (root_note : pystr) (root_fret : Z) (scale_mode : ScaleMode)
  : BarcodeToTab :=
  mkSelf root_note root_fret scale_mode (SCALES scale_mode).

(** The converter the command line builds without [--harmonic]. *)
Definition default_converter : BarcodeToTab :=
  init (lit "E") 0 MINOR_PENTATONIC.

(** ** Standard output *)

(** The lines printed so far. *)
Definition stdout : Type := list pystr.

Definition IO (A : Type) : Type := stdout -> result A * stdout.

Definition io_ret {A : Type} (a : A) : IO A := fun out => (Ok a, out).

Definition io_bind {A B : Type} (c : IO A) (k : A -> IO B) : IO B :=
  fun out =>
    match c out with
    | (Ok a, out') => k a out'
    | (Raise e, out') => (Raise e, out')
    end.

Definition io_lift {A : Type} (c : result A) : IO A := fun out => (c, out).

(** [print(line)] *)
Definition print (line : pystr) : IO unit :=
  fun out => (Ok tt, out ++ [line]).

Declare Scope io_scope.
Delimit Scope io_scope with io.

Notation "x <- c ;; k" := (io_bind c (fun x => k))
  (at level 100, c at next level, right associativity) : io_scope.

(** ** The note generators *)

(** [[int(c) for c in barcode if c.isdigit()]] *)
Fixpoint digits_of (barcode : pystr) : result (list Z) :=
  match barcode with
  | [] => Ok []
  | c :: rest =>
      if isdigit c then
        d <- int c ;;
        ds <- digits_of rest ;;
        Ok (d :: ds)
      else digits_of rest
  end.

(** [while fret > 19: fret -= 12] *)
Equations? normalize (fret : Z) : Z by wf (Z.to_nat (fret - 19)) lt :=
  normalize fret with Z_gt_le_dec fret 19 => {
    | left _ := normalize (fret - 12);
    | right _ := fret }.
Proof. lia. Qed.

(** The body of the loop of [barcode_to_notes] at index [i]: the string in
    use after this step and the note appended. *)
Definition melodic_step (self : BarcodeToTab) (i digit current_string : Z)
  : result (Z * GuitarNote) :=
  scale_degree <- py_mod digit (len (scale self)) ;;
  interval <- getitem (scale self) scale_degree ;;
  let fret := normalize (root_fret self + interval) in
  let current_string :=
    if (i >? 0) && (i mod 4 =? 0) then (current_string + 1) mod 6
    else current_string in
  let duration := if (digit =? 0) || (digit =? 5) then 2 else 1 in
  Ok (current_string, mkNote current_string fret duration).

(** [for i, digit in enumerate(digits): ...], from index [i] on. *)
Fixpoint melodic_loop (self : BarcodeToTab) (i : Z) (digits : list Z)
    (current_string : Z) (notes : list GuitarNote)
  : result (list GuitarNote) :=
  match digits with
  | [] => Ok notes
  | digit :: rest =>
      step <- melodic_step self i digit current_string ;;
      melodic_loop self (i + 1) rest (fst step) (notes ++ [snd step])
  end.

(** [BarcodeToTab.barcode_to_notes] *)
Definition barcode_to_notes (self : BarcodeToTab) (barcode : pystr)
  : IO (list GuitarNote) :=
  (digits <- io_lift (digits_of barcode) ;;
   match digits with
   | [] =>
       _ <- print (lit "No digits found in barcode") ;;
       io_ret []
   | _ => io_lift (melodic_loop self 0 digits 0 [])
   end)%io.

(** [for i, digit in enumerate(digits): ...] of
    [generate_power_chord_riff]; the index is not used. *)
Fixpoint power_loop (digits : list Z) (notes : list GuitarNote)
  : result (list GuitarNote) :=
  match digits with
  | [] => Ok notes
  | digit :: rest =>
      root_fret <- py_mod digit 13 ;;
      let notes := notes ++ [mkNote 0 root_fret 2] in
      let notes := notes ++ [mkNote 1 (root_fret + 2) 2] in
      let notes :=
        if (digit =? 0) || (digit =? 5) then
          (notes ++ [mkNote 0 root_fret 1]) ++ [mkNote 1 (root_fret + 2) 1]
        else notes in
      power_loop rest notes
  end.

(** [BarcodeToTab.generate_power_chord_riff] *)
Definition generate_power_chord_riff (self : BarcodeToTab) (barcode : pystr)
  : result (list GuitarNote) :=
  digits <- digits_of barcode ;;
  match digits with
  | [] => Ok []
  | _ => power_loop digits []
  end.

(** ** The renderer *)

Definition dash : char := N_of_ascii "-".
Definition newline : pystr := [10%N].

Definition tuning_labels : list pystr :=
  [lit "e|"; lit "B|"; lit "G|"; lit "D|"; lit "A|"; lit "E|"].

(** ["=" * 60] *)
Definition rule : pystr := repeat (N_of_ascii "=") 60.

(** [for char_idx, char in enumerate(fret_str): ...], from [char_idx] on.
    The row [tab_lines[string_idx]] is updated in place, so the grid holds
    the updated row afterwards. *)
Fixpoint place_chars (total_length string_idx position char_idx : Z)
    (fret_str : pystr) (tab_lines : list pystr) : result (list pystr) :=
  match fret_str with
  | [] => Ok tab_lines
  | ch :: rest =>
      tab_lines <-
        (if position + char_idx <? total_length then
           row <- getitem tab_lines string_idx ;;
           row <- setitem row (position + char_idx) ch ;;
           setitem tab_lines string_idx row
         else Ok tab_lines) ;;
      place_chars total_length string_idx position (char_idx + 1) rest
        tab_lines
  end.

(** [for note in notes: ...] with the cursor at [position]. *)
Fixpoint place_notes (total_length : Z) (notes : list GuitarNote)
    (position : Z) (tab_lines : list pystr) : result (list pystr) :=
  match notes with
  | [] => Ok tab_lines
  | note :: rest =>
      let string_idx := 5 - string_ note in
      fret_str <- str (fret note) ;;
      tab_lines <-
        place_chars total_length string_idx position 0 fret_str tab_lines ;;
      place_notes total_length rest (position + duration note * 2) tab_lines
  end.

(** [sum(note.duration * 2 for note in notes) + 2] *)
Definition total_length (notes : list GuitarNote) : Z :=
  sum (List.map (fun note => duration note * 2) notes) + 2.

(** The six lines of dashes the renderer starts from; [range] of a
    negative number is empty. *)
Definition blank_lines (total_length : Z) : list pystr :=
  replicate 6 (replicate (Z.to_nat total_length) dash).

(** The grid of [notes_to_tab] once every note is placed. *)
Definition tab_grid (notes : list GuitarNote) : result (list pystr) :=
  place_notes (total_length notes) notes 1 (blank_lines (total_length notes)).

(** The text assembled from the grid. *)
Definition build_output (self : BarcodeToTab) (title : pystr)
    (tab_lines : list pystr) : pystr :=
  let output := [newline ++ title] in
  let output :=
    output ++
    [lit "Scale: " ++ value (scale_mode self) ++ lit " in " ++ root_note self]
  in
  let output := output ++ [rule] in
  let output :=
    output ++
    List.map (fun p => fst p ++ snd p ++ lit "|")
      (List.combine tuning_labels tab_lines) in
  let output := output ++ [rule] in
  join newline output.

(** [BarcodeToTab.notes_to_tab] *)
Definition notes_to_tab (self : BarcodeToTab) (notes : list GuitarNote)
    (title : pystr) : result pystr :=
  match notes with
  | [] => Ok (lit "No notes to display")
  | _ =>
      tab_lines <- tab_grid notes ;;
      Ok (build_output self title tab_lines)
  end.

(** ** The facade *)

(** [BarcodeToTab.convert] *)
Definition convert (self : BarcodeToTab) (barcode : pystr)
    (use_power_chords : bool) : IO pystr :=
  (riff <-
     (if use_power_chords then
        notes <- io_lift (generate_power_chord_riff self barcode) ;;
        io_ret (notes, lit "Power Chord Riff - " ++ barcode)
      else
        notes <- barcode_to_notes self barcode ;;
        io_ret (notes, lit "Barcode Riff - " ++ barcode)) ;;
   io_lift (notes_to_tab self (fst riff) (snd riff)))%io.

(** * The same methods over a store of objects

    A Python list is an object: a name denotes it, two names can denote
    the same list, and a change made through one shows through the other.
    The converter keeps such a list: [self.scale] is the very list the
    class table [SCALES] holds for the mode.  This second embedding of the
    methods keeps the lists the program changes or shares (the scales,
    [notes], the six tab lines and [tab_lines], [output]) in a store,
    and the attributes of the converter in the state, so that what a call
    leaves behind for the next one can be stated.  Lists that are built
    and only read where they are built ([digits], [tuning_labels]) stay
    values. *)

(** A list object is named by its place in the store. *)
Definition loc : Type := nat.

(** What a list can hold. *)
Inductive pyval : Type :=
| VInt (n : Z)
| VStr (s : pystr)
| VNote (note : GuitarNote)
| VRef (l : loc).

(** The attributes of a [BarcodeToTab] instance. *)
Record instance : Type := mkInstance {
  a_root_note : pystr;
  a_root_fret : Z;
  a_scale_mode : ScaleMode;
  a_scale : loc
}.

(** What a method call can see and change: the text printed, the list
    objects, and the attributes of the converter it is called on. *)
Record world : Type := mkWorld {
  w_out : stdout;
  w_heap : list (list pyval);
  w_self : instance
}.

Definition ST (A : Type) : Type := world -> result A * world.

Definition st_ret {A : Type} (a : A) : ST A := fun w => (Ok a, w).

Definition st_bind {A B : Type} (c : ST A) (k : A -> ST B) : ST B :=
  fun w =>
    match c w with
    | (Ok a, w') => k a w'
    | (Raise e, w') => (Raise e, w')
    end.

Definition st_lift {A : Type} (c : result A) : ST A := fun w => (c, w).

Declare Scope st_scope.
Delimit Scope st_scope with st.

Notation "x <- c ;; k" := (st_bind c (fun x => k))
  (at level 100, c at next level, right associativity) : st_scope.

(** [self] *)
Definition get_self : ST instance := fun w => (Ok (w_self w), w).

(** [print(line)] *)
Definition st_print (line : pystr) : ST unit :=
  fun w => (Ok tt, mkWorld (w_out w ++ [line]) (w_heap w) (w_self w)).

(** A new list object holding [items]. *)
Definition new_list (items : list pyval) : ST loc :=
  fun w =>
    (Ok (length (w_heap w)),
     mkWorld (w_out w) (w_heap w ++ [items]) (w_self w)).

(** The items of a list object. *)
Definition items_of (l : loc) : ST (list pyval) :=
  fun w => (Ok (default [] (w_heap w !! l)), w).

(** The list object [l] now holds [items]. *)
Definition store (l : loc) (items : list pyval) : ST unit :=
  fun w => (Ok tt, mkWorld (w_out w) (<[l := items]> (w_heap w)) (w_self w)).

(** [l.append(v)] *)
Definition list_append (l : loc) (v : pyval) : ST unit :=
  (items <- items_of l ;; store l (items ++ [v]))%st.

(** [l[i]] *)
Definition list_getitem (l : loc) (i : Z) : ST pyval :=
  (items <- items_of l ;; st_lift (getitem items i))%st.

(** [l[i] = v] *)
Definition list_setitem (l : loc) (i : Z) (v : pyval) : ST unit :=
  (items <- items_of l ;;
   items <- st_lift (setitem items i v) ;;
   store l items)%st.

(** An item used as an [int] operand. *)
Definition as_int (v : pyval) : result Z :=
  match v with VInt n => Ok n | _ => Raise TypeError end.

(** An item used as a string to join. *)
Definition as_str (v : pyval) : result pystr :=
  match v with VStr s => Ok s | _ => Raise TypeError end.

(** An item used as a list. *)
Definition as_ref (v : pyval) : result loc :=
  match v with VRef l => Ok l | _ => Raise TypeError end.

(** An item whose [string], [fret] and [duration] are read. *)
Definition as_note (v : pyval) : result GuitarNote :=
  match v with VNote note => Ok note | _ => Raise AttributeError end.

(** [[f(x) for x in l]] where [f] can raise. *)
Fixpoint rmap {A B : Type} (f : A -> result B) (l : list A)
  : result (list B) :=
  match l with
  | [] => Ok []
  | x :: rest =>
      y <- f x ;;
      ys <- rmap f rest ;;
      Ok (y :: ys)
  end.

(** The place of the list the class table [SCALES] holds for a mode, the
    lists being made in the order of the table. *)
Definition SCALES_loc (m : ScaleMode) : loc :=
  match m with
  | MINOR_PENTATONIC => 0%nat
  | NATURAL_MINOR => 1%nat
  | HARMONIC_MINOR => 2%nat
  | CHROMATIC => 3%nat
  | POWER_CHORD => 4%nat
  end.

(** The store once the class is defined: the five lists of [SCALES]. *)
Definition class_heap : list (list pyval) :=
  List.map (fun m => VInt <$> SCALES m)
    [MINOR_PENTATONIC; NATURAL_MINOR; HARMONIC_MINOR; CHROMATIC; POWER_CHORD].

(** [BarcodeToTab.__init__]: [self.scale] is the list of the class table,
    not a copy of it. *)
Definition init_st (root_note : pystr) (root_fret : Z)
    (scale_mode : ScaleMode) (out : stdout) (heap : list (list pyval))
  : world :=
  mkWorld out heap
    (mkInstance root_note root_fret scale_mode (SCALES_loc scale_mode)).

(** The loop of [barcode_to_notes], appending to the list object
    [notes]. *)
Fixpoint melodic_loop_st (i : Z) (digits : list Z) (current_string : Z)
    (notes : loc) : ST unit :=
  match digits with
  | [] => st_ret tt
  | digit :: rest =>
      (self <- get_self ;;
       scale <- items_of (a_scale self) ;;
       scale_degree <- st_lift (py_mod digit (len scale)) ;;
       interval <- list_getitem (a_scale self) scale_degree ;;
       interval <- st_lift (as_int interval) ;;
       let fret := normalize (a_root_fret self + interval) in
       let current_string :=
         if (i >? 0) && (i mod 4 =? 0) then (current_string + 1) mod 6
         else current_string in
       let duration := if (digit =? 0) || (digit =? 5) then 2 else 1 in
       _ <- list_append notes (VNote (mkNote current_string fret duration)) ;;
       melodic_loop_st (i + 1) rest current_string notes)%st
  end.

(** [BarcodeToTab.barcode_to_notes], returning the list object. *)
Definition barcode_to_notes_st (barcode : pystr) : ST loc :=
  (notes <- new_list [] ;;
   digits <- st_lift (digits_of barcode) ;;
   match digits with
   | [] =>
       _ <- st_print (lit "No digits found in barcode") ;;
       st_ret notes
   | _ =>
       _ <- melodic_loop_st 0 digits 0 notes ;;
       st_ret notes
   end)%st.

(** The loop of [generate_power_chord_riff]. *)
Fixpoint power_loop_st (digits : list Z) (notes : loc) : ST unit :=
  match digits with
  | [] => st_ret tt
  | digit :: rest =>
      (root_fret <- st_lift (py_mod digit 13) ;;
       _ <- list_append notes (VNote (mkNote 0 root_fret 2)) ;;
       _ <- list_append notes (VNote (mkNote 1 (root_fret + 2) 2)) ;;
       _ <- (if (digit =? 0) || (digit =? 5) then
               _ <- list_append notes (VNote (mkNote 0 root_fret 1)) ;;
               list_append notes (VNote (mkNote 1 (root_fret + 2) 1))
             else st_ret tt) ;;
       power_loop_st rest notes)%st
  end.

(** [BarcodeToTab.generate_power_chord_riff], returning the list
    object. *)
Definition generate_power_chord_riff_st (barcode : pystr) : ST loc :=
  (notes <- new_list [] ;;
   digits <- st_lift (digits_of barcode) ;;
   match digits with
   | [] => st_ret notes
   | _ =>
       _ <- power_loop_st digits notes ;;
       st_ret notes
   end)%st.

(** [[['-' for _ in range(total_length)] for _ in range(6)]]: the new
    lines, one object each. *)
Fixpoint new_lines (count : nat) (total_length : Z) : ST (list loc) :=
  match count with
  | O => st_ret []
  | S count =>
      (line <- new_list (replicate (Z.to_nat total_length) (VStr [dash])) ;;
       lines <- new_lines count total_length ;;
       st_ret (line :: lines))%st
  end.

(** The inner loop of [notes_to_tab] on the list object [tab_lines]. *)
Fixpoint place_chars_st (total_length string_idx position char_idx : Z)
    (fret_str : pystr) (tab_lines : loc) : ST unit :=
  match fret_str with
  | [] => st_ret tt
  | ch :: rest =>
      (_ <- (if position + char_idx <? total_length then
               line <- list_getitem tab_lines string_idx ;;
               line <- st_lift (as_ref line) ;;
               list_setitem line (position + char_idx) (VStr [ch])
             else st_ret tt) ;;
       place_chars_st total_length string_idx position (char_idx + 1) rest
         tab_lines)%st
  end.

(** [for note in notes: ...]: the items of [notes] in turn; the loop does
    not change that list. *)
Fixpoint place_notes_st (total_length : Z) (notes : list pyval)
    (position : Z) (tab_lines : loc) : ST unit :=
  match notes with
  | [] => st_ret tt
  | item :: rest =>
      (note <- st_lift (as_note item) ;;
       let string_idx := 5 - string_ note in
       fret_str <- st_lift (str (fret note)) ;;
       _ <- place_chars_st total_length string_idx position 0 fret_str
              tab_lines ;;
       place_notes_st total_length rest (position + duration note * 2)
         tab_lines)%st
  end.

(** [for label, line in zip(tuning_labels, tab_lines): ...] *)
Fixpoint output_lines_st (pairs : list (pystr * pyval)) (output : loc)
  : ST unit :=
  match pairs with
  | [] => st_ret tt
  | (label, line) :: rest =>
      (line <- st_lift (as_ref line) ;;
       cells <- items_of line ;;
       cells <- st_lift (rmap as_str cells) ;;
       _ <- list_append output (VStr (label ++ List.concat cells ++ lit "|")) ;;
       output_lines_st rest output)%st
  end.

(** The text assembled in the list object [output] from the lines of
    [tab_lines]. *)
Definition build_output_st (title : pystr) (tab_lines : loc) : ST pystr :=
  (output <- new_list [] ;;
   _ <- list_append output (VStr (newline ++ title)) ;;
   self <- get_self ;;
   _ <- list_append output
          (VStr (lit "Scale: " ++ value (a_scale_mode self) ++
                 lit " in " ++ a_root_note self)) ;;
   _ <- list_append output (VStr rule) ;;
   lines <- items_of tab_lines ;;
   _ <- output_lines_st (List.combine tuning_labels lines) output ;;
   _ <- list_append output (VStr rule) ;;
   texts <- items_of output ;;
   texts <- st_lift (rmap as_str texts) ;;
   st_ret (join newline texts))%st.

(** [note.duration * 2] for an item of [notes]. *)
Definition note_width (item : pyval) : result Z :=
  note <- as_note item ;; Ok (duration note * 2).

(** [BarcodeToTab.notes_to_tab] on the list object [notes]. *)
Definition notes_to_tab_st (notes : loc) (title : pystr) : ST pystr :=
  (items <- items_of notes ;;
   match items with
   | [] => st_ret (lit "No notes to display")
   | _ =>
       durations <-
         st_lift (rmap note_width items) ;;
       let total_length := sum durations + 2 in
       lines <- new_lines 6 total_length ;;
       tab_lines <- new_list (VRef <$> lines) ;;
       _ <- place_notes_st total_length items 1 tab_lines ;;
       build_output_st title tab_lines
   end)%st.

(** [BarcodeToTab.convert] *)
Definition convert_st (barcode : pystr) (use_power_chords : bool)
  : ST pystr :=
  (riff <-
     (if use_power_chords then
        notes <- generate_power_chord_riff_st barcode ;;
        st_ret (notes, lit "Power Chord Riff - " ++ barcode)
      else
        notes <- barcode_to_notes_st barcode ;;
        st_ret (notes, lit "Barcode Riff - " ++ barcode)) ;;
   notes_to_tab_st (fst riff) (snd riff))%st.

(** * Specification-side definitions

    What the statements below compare the code with. *)

(** The characters [int] cannot read although [isdigit] holds of them. *)
Definition undecodable (c : char) : bool := isdigit c && negb (isdecimal c).

(** The values of the decimal digits of a string, in order. *)
Definition decimal_digits (barcode : pystr) : list Z := omap to_decimal barcode.

(** The interval the scale gives a digit. *)
Definition interval_of (self : BarcodeToTab) (digit : Z) : Z :=
  List.nth (Z.to_nat (digit mod len (scale self))) (scale self) 0.

(** The note the melodic generator makes of the digit at index [k]. *)
Definition melodic_note (self : BarcodeToTab) (k : nat) (digit : Z)
  : GuitarNote :=
  mkNote ((Z.of_nat k / 4) mod 6)
         (normalize (root_fret self + interval_of self digit))
         (if (digit =? 0) || (digit =? 5) then 2 else 1).

(** The string in use when the loop reaches index [i]. *)
Definition string_before (i : Z) : Z := (Z.max (i - 1) 0 / 4) mod 6.

(** The notes one digit contributes. *)
Definition chord_of (digit : Z) : list GuitarNote :=
  [mkNote 0 (digit mod 13) 2; mkNote 1 (digit mod 13 + 2) 2] ++
  (if (digit =? 0) || (digit =? 5)
   then [mkNote 0 (digit mod 13) 1; mkNote 1 (digit mod 13 + 2) 1]
   else []).

(** The character at row [r], column [c] of a grid. *)
Definition cell (grid : list pystr) (r c : nat) : option char :=
  match grid !! r with
  | Some line => line !! c
  | None => None
  end.

(** The layout the specification describes.  A text written on row
    [string_idx] from column [start] on puts its characters in consecutive
    columns. *)
Definition text_cell (string_idx start : Z) (text : pystr) (r c : nat)
  : option char :=
  if (Z.of_nat r =? string_idx) && (start <=? Z.of_nat c)
  then text !! Z.to_nat (Z.of_nat c - start)
  else None.

(** The layout the specification describes.  Walking the notes with the
    cursor at [cursor], each note writes the decimal text of its fret on
    row [5 - string_index] at the cursor, and the cursor advances by twice
    the duration; a later note overwrites an earlier one. *)
Fixpoint written (notes : list GuitarNote) (cursor : Z) (r c : nat)
  : option char :=
  match notes with
  | [] => None
  | note :: rest =>
      match written rest (cursor + duration note * 2) r c with
      | Some ch => Some ch
      | None =>
          text_cell (5 - string_ note) cursor (decimal_text (fret note)) r c
      end
  end.

(** The integers [str] converts. *)
Definition printable (n : Z) : Prop := num_digits n <= int_max_str_digits.

(** Six lines of [width] characters each. *)
Definition grid_ok (width : nat) (grid : list pystr) : Prop :=
  length grid = 6%nat /\ Forall (fun line => length line = width) grid.

(** The digits both generators lengthen or repeat. *)
Definition emphasized (digit : Z) : bool := (digit =? 0) || (digit =? 5).

(** The ASCII spelling of a list of digit values. *)
Definition ascii_digits (digits : list Z) : pystr :=
  List.map (fun digit => Z.to_N (48 + digit)) digits.

(** The column of the cursor when the renderer reaches the note at index
    [k]. *)
Definition cursor_at (notes : list GuitarNote) (k : nat) : Z :=
  1 + sum (List.map (fun note => duration note * 2) (take k notes)).

(** The row a Python index into the six lines denotes. *)
Definition row_of (string_idx : Z) : nat :=
  Z.to_nat (if string_idx <? 0 then string_idx + 6 else string_idx).


(** The converter of the first embedding that an instance stands for
    when its scale list holds [scale]. *)
Definition pure_self (self : instance) (scale : list Z) : BarcodeToTab :=
  mkSelf (a_root_note self) (a_root_fret self) (a_scale_mode self) scale.

(** A tab line and a grid as the store holds them: a line is a list
    of one-character strings. *)
Definition enc_line (line : pystr) : list pyval :=
  (fun ch => VStr [ch]) <$> line.

Definition enc_grid (grid : list pystr) : list (list pyval) :=
  enc_line <$> grid.

(** The six lines made one after the other from place [first] on. *)
Definition line_refs (first : nat) : list pyval :=
  (fun j => VRef (first + j)%nat) <$> seq 0 6.

(** What a call has left as it was: the attributes of the converter,
    and every list object that existed before it, at its place and with
    its items; the objects the call made come after them. *)
Definition unchanged (before after : world) : Prop :=
  w_self after = w_self before /\
  exists fresh : list (list pyval), w_heap after = w_heap before ++ fresh.

(** Two converters, each in its world, with the same configuration: the
    same root note, root fret and scale mode, and scale lists that hold
    the same items. *)
Definition same_configuration (w w' : world) : Prop :=
  a_root_note (w_self w') = a_root_note (w_self w) /\
  a_root_fret (w_self w') = a_root_fret (w_self w) /\
  a_scale_mode (w_self w') = a_scale_mode (w_self w) /\
  w_heap w' !! a_scale (w_self w') = w_heap w !! a_scale (w_self w).

(** * Properties *)

(** ** Digits *)

Lemma to_decimal_range (c : char) (v : Z) :
  to_decimal c = Some v -> 0 <= v <= 9.
Proof.
  unfold to_decimal.
  destruct (List.find _ decimal_runs) as [start|] eqn:Hfind; [|discriminate].
  apply List.find_some in Hfind as [_ Hrun].
  unfold in_run in Hrun; simpl in Hrun.
  apply andb_true_iff in Hrun as [Hlo Hhi].
  apply N.leb_le in Hlo. apply N.ltb_lt in Hhi.
  intros [= <-]. lia.
Qed.

Lemma digits_of_spec (barcode : pystr) :
  digits_of barcode =
    if List.existsb undecodable barcode then Raise ValueError
    else Ok (decimal_digits barcode).
Proof.
  induction barcode as [|c rest IH]; [reflexivity|].
  cbn [digits_of List.existsb]. unfold undecodable at 1, isdigit, isdecimal, int.
  unfold decimal_digits in *. cbn [omap list_omap].
  destruct (to_decimal c) as [v|] eqn:Hc;
    destruct (List.existsb (in_run c) digit_only_runs);
    cbn [orb andb negb rbind]; rewrite ?IH;
    destruct (List.existsb undecodable rest); reflexivity.
Qed.

Lemma decimal_digits_range (barcode : pystr) :
  Forall (fun d => 0 <= d <= 9) (decimal_digits barcode).
Proof.
  induction barcode as [|c rest IH]; [constructor|].
  unfold decimal_digits in *. cbn [omap list_omap].
  destruct (to_decimal c) as [v|] eqn:Hc; cbn; [|exact IH].
  constructor; [eapply to_decimal_range; eassumption | exact IH].
Qed.

Lemma digits_of_Raise (barcode : pystr) (e : exn) :
  digits_of barcode = Raise e ->
  e = ValueError /\ List.existsb undecodable barcode = true.
Proof.
  rewrite digits_of_spec.
  destruct (List.existsb undecodable barcode); [|discriminate].
  intros [= <-]. auto.
Qed.

(** ** The normalization loop *)

Lemma normalize_loop (fret : Z) :
  normalize fret = if fret >? 19 then normalize (fret - 12) else fret.
Proof.
  rewrite normalize_equation_1. 
  destruct (Z_gt_le_dec fret 19) as [H|H]; cbn.
  - apply Z.gtb_gt in H. rewrite H. reflexivity.
  - destruct (fret >? 19) eqn:E; [apply Z.gtb_gt in E; lia | reflexivity].
Qed.

Lemma normalize_le (fret : Z) : normalize fret <= 19.
Proof. funelim (normalize fret); simp normalize in *; lia. Qed.

Lemma normalize_ge (fret lo : Z) :
  lo <= 8 -> lo <= fret -> lo <= normalize fret.
Proof.
  intros Hlo. funelim (normalize fret); intros Hfret; [|exact Hfret].
  match goal with IH : forall lo : Z, _ |- _ => apply IH; lia end.
Qed.

(** ** The melodic generator *)

(** The scale every converter is built with is one of the table: it is
    not empty and its intervals lie between 0 and 12. *)
Lemma SCALES_length (m : ScaleMode) : 0 < len (SCALES m).
Proof. destruct m; vm_compute; reflexivity. Qed.

Lemma SCALES_range (m : ScaleMode) :
  Forall (fun interval => 0 <= interval <= 12) (SCALES m).
Proof.
  destruct m; cbn; repeat constructor; lia.
Qed.

Lemma py_index_in_range {A : Type} (l : list A) (i : Z) :
  0 <= i < len l -> py_index l i = Some (Z.to_nat i).
Proof.
  intros Hi. unfold py_index.
  destruct (i <? 0) eqn:Hneg; [apply Z.ltb_lt in Hneg; lia|].
  destruct (0 <=? i) eqn:H0; [|apply Z.leb_gt in H0; lia].
  destruct (i <? len l) eqn:H1; [|apply Z.ltb_ge in H1; lia].
  reflexivity.
Qed.

Lemma getitem_in_range {A : Type} (l : list A) (i : Z) :
  0 <= i < len l ->
  exists x, l !! Z.to_nat i = Some x /\ getitem l i = Ok x.
Proof.
  intros Hi. unfold getitem. rewrite py_index_in_range by exact Hi.
  destruct (lookup_lt_is_Some_2 l (Z.to_nat i)) as [x Hx].
  { unfold len in Hi. lia. }
  exists x. rewrite Hx. auto.
Qed.

Lemma string_advance (i : Z) :
  0 <= i ->
  (if (i >? 0) && (i mod 4 =? 0) then (string_before i + 1) mod 6
   else string_before i) = (i / 4) mod 6.
Proof.
  intros Hi. unfold string_before.
  destruct (i >? 0) eqn:Hpos; cbn [andb].
  - apply Z.gtb_gt in Hpos. rewrite Z.max_l by lia.
    destruct (i mod 4 =? 0) eqn:Hmod.
    + apply Z.eqb_eq in Hmod.
      rewrite Z.add_mod_idemp_l by lia. f_equal.
      pose proof (Z.div_mod i 4). pose proof (Z.div_mod (i - 1) 4).
      pose proof (Z.mod_pos_bound (i - 1) 4). lia.
    + apply Z.eqb_neq in Hmod. f_equal.
      pose proof (Z.div_mod i 4). pose proof (Z.div_mod (i - 1) 4).
      pose proof (Z.mod_pos_bound (i - 1) 4).
      pose proof (Z.mod_pos_bound i 4). lia.
  - assert (i = 0) as -> by (rewrite Z.gtb_ltb in Hpos; apply Z.ltb_ge in Hpos; lia).
    reflexivity.
Qed.

Lemma melodic_step_init (rn : pystr) (rf : Z) (m : ScaleMode)
    (i digit : Z) :
  0 <= i ->
  melodic_step (init rn rf m) i digit (string_before i) =
    Ok ((i / 4) mod 6, melodic_note (init rn rf m) (Z.to_nat i) digit).
Proof.
  intros Hi. unfold melodic_step, py_mod. cbn [scale init].
  pose proof (SCALES_length m) as Hlen.
  destruct (len (SCALES m) =? 0) eqn:H0; [apply Z.eqb_eq in H0; lia|].
  cbn [rbind].
  pose proof (Z.mod_pos_bound digit (len (SCALES m)) Hlen) as Hdeg.
  destruct (getitem_in_range (SCALES m) _ Hdeg) as (x & Hx & ->).
  cbn [rbind]. rewrite string_advance by exact Hi.
  unfold melodic_note, interval_of. cbn [scale init root_fret].
  rewrite Z2Nat.id by exact Hi.
  rewrite (nth_lookup_Some _ _ 0 _ Hx). reflexivity.
Qed.

Lemma string_before_succ (i : Z) : 0 <= i -> string_before (i + 1) = (i / 4) mod 6.
Proof.
  intros Hi. unfold string_before. rewrite Z.max_l by lia.
  do 2 f_equal. lia.
Qed.

Lemma melodic_loop_init (rn : pystr) (rf : Z) (m : ScaleMode)
    (digits : list Z) :
  forall (i : Z) (notes : list GuitarNote),
    0 <= i ->
    melodic_loop (init rn rf m) i digits (string_before i) notes =
      Ok (notes ++
          imap (fun k => melodic_note (init rn rf m) (Z.to_nat i + k)) digits).
Proof.
  induction digits as [|digit rest IH]; intros i notes Hi.
  - cbn. rewrite app_nil_r. reflexivity.
  - cbn [melodic_loop]. rewrite melodic_step_init by exact Hi.
    cbn [rbind fst snd]. rewrite <- string_before_succ by exact Hi.
    rewrite IH by lia. rewrite <- app_assoc. cbn [app imap].
    rewrite Nat.add_0_r. do 3 f_equal.
    apply imap_ext. intros k d _. cbn. f_equal. lia.
Qed.

(** What [barcode_to_notes] does, for a converter built by [init]. *)
Lemma barcode_to_notes_spec (rn : pystr) (rf : Z) (m : ScaleMode)
    (barcode : pystr) (out : stdout) :
  barcode_to_notes (init rn rf m) barcode out =
    if List.existsb undecodable barcode then (Raise ValueError, out)
    else
      match decimal_digits barcode with
      | [] => (Ok [], out ++ [lit "No digits found in barcode"])
      | digits => (Ok (imap (melodic_note (init rn rf m)) digits), out)
      end.
Proof.
  unfold barcode_to_notes, io_bind, io_lift. rewrite digits_of_spec.
  destruct (List.existsb undecodable barcode); [reflexivity|].
  destruct (decimal_digits barcode) as [|d ds] eqn:Hds; [reflexivity|].
  change 0 with (string_before 0) at 2.
  rewrite melodic_loop_init by lia. reflexivity.
Qed.

(** The notes of a run that returns, whatever it printed. *)
Lemma barcode_to_notes_Ok (rn : pystr) (rf : Z) (m : ScaleMode)
    (barcode : pystr) (out out' : stdout) (notes : list GuitarNote) :
  barcode_to_notes (init rn rf m) barcode out = (Ok notes, out') ->
  digits_of barcode = Ok (decimal_digits barcode) /\
  notes = imap (melodic_note (init rn rf m)) (decimal_digits barcode).
Proof.
  rewrite barcode_to_notes_spec, digits_of_spec.
  destruct (List.existsb undecodable barcode); [discriminate|].
  destruct (decimal_digits barcode); intros [= <- _]; auto.
Qed.

(** ** The power-chord generator *)

Lemma power_loop_spec (digits : list Z) :
  forall notes : list GuitarNote,
    power_loop digits notes = Ok (notes ++ List.concat (List.map chord_of digits)).
Proof.
  induction digits as [|digit rest IH]; intros notes.
  - cbn. rewrite app_nil_r. reflexivity.
  - cbn [power_loop py_mod Z.eqb rbind List.map List.concat].
    rewrite IH. unfold chord_of at 2.
    destruct ((digit =? 0) || (digit =? 5));
      rewrite <- ?app_assoc; reflexivity.
Qed.

Lemma generate_power_chord_riff_spec (self : BarcodeToTab) (barcode : pystr) :
  generate_power_chord_riff self barcode =
    if List.existsb undecodable barcode then Raise ValueError
    else Ok (List.concat (List.map chord_of (decimal_digits barcode))).
Proof.
  unfold generate_power_chord_riff. rewrite digits_of_spec.
  destruct (List.existsb undecodable barcode); [reflexivity|].
  cbn [rbind]. destruct (decimal_digits barcode) as [|d ds]; [reflexivity|].
  apply power_loop_spec.
Qed.

(** On a string in which [int] can read every character [isdigit] holds
    of, the melodic generator returns one note per decimal digit, in the
    order of the digits; a string without digits gives the empty list. *)
Lemma melodic_one_note_per_decimal_digit (rn : pystr) (rf : Z)
    (m : ScaleMode) (barcode : pystr) (out : stdout) :
  List.existsb undecodable barcode = false ->
  exists notes,
    fst (barcode_to_notes (init rn rf m) barcode out) = Ok notes /\
    notes = imap (melodic_note (init rn rf m)) (decimal_digits barcode) /\
    length notes = length (List.filter isdecimal barcode).
Proof.
  intros Hclean. rewrite barcode_to_notes_spec, Hclean.
  exists (imap (melodic_note (init rn rf m)) (decimal_digits barcode)).
  split; [destruct (decimal_digits barcode); reflexivity|].
  split; [reflexivity|]. rewrite length_imap.
  clear Hclean. unfold decimal_digits.
  induction barcode as [|c rest IH]; [reflexivity|].
  cbn [omap list_omap List.filter]. unfold isdecimal at 1.
  destruct (to_decimal c); cbn; rewrite IH; reflexivity.
Qed.

(** C1, at the input that breaks it: the string made of the one character
    SUPERSCRIPT TWO (U+00B2) has no decimal digit, [isdigit] holds of its
    character, and the melodic generator raises [ValueError] on it instead
    of returning the empty sequence. *)
Theorem melodic_raises_on_superscript_two :
  isdigit 178%N = true /\
  decimal_digits [178%N] = [] /\
  forall out : stdout,
    barcode_to_notes default_converter [178%N] out = (Raise ValueError, out).
Proof. repeat split. Qed.

(** On a string in which [int] can read every character [isdigit] holds
    of, the power-chord generator returns the chords of the decimal digits
    in order, two to four notes per digit. *)
Lemma power_chord_shape (self : BarcodeToTab) (barcode : pystr) :
  List.existsb undecodable barcode = false ->
  exists notes,
    generate_power_chord_riff self barcode = Ok notes /\
    notes = List.concat (List.map chord_of (decimal_digits barcode)) /\
    2 * len (decimal_digits barcode) <= len notes
      <= 4 * len (decimal_digits barcode).
Proof.
  intros Hclean. rewrite generate_power_chord_riff_spec, Hclean.
  eexists. split; [reflexivity|]. split; [reflexivity|].
  unfold len. induction (decimal_digits barcode) as [|d ds IH].
  - cbn. lia.
  - cbn [List.map List.concat]. rewrite length_app. cbn [length] in *.
    assert (2 <= length (chord_of d) <= 4)%nat.
    { unfold chord_of. destruct ((d =? 0) || (d =? 5)); cbn; lia. }
    lia.
Qed.

(** C2, at the input that breaks it: on the string made of the one
    character SUPERSCRIPT TWO (U+00B2) the power-chord generator raises
    [ValueError] and emits no notes at all. *)
Theorem power_chord_raises_on_superscript_two :
  isdigit 178%N = true /\
  decimal_digits [178%N] = [] /\
  forall self : BarcodeToTab,
    generate_power_chord_riff self [178%N] = Raise ValueError.
Proof. repeat split. Qed.

(** The input ["5"] in power-chord mode. *)
Example power_chord_5 (self : BarcodeToTab) :
  generate_power_chord_riff self (lit "5") =
    Ok [mkNote 0 5 2; mkNote 1 7 2; mkNote 0 5 1; mkNote 1 7 1].
Proof. reflexivity. Qed.

(** The fret of a melodic note: at most 19, and not below 0 when the root
    fret is not. *)
Lemma melodic_note_fret_le (self : BarcodeToTab) (k : nat) (digit : Z) :
  fret (melodic_note self k digit) <= 19.
Proof. apply normalize_le. Qed.

Lemma interval_of_range (rn : pystr) (rf : Z) (m : ScaleMode) (digit : Z) :
  0 <= interval_of (init rn rf m) digit <= 12.
Proof.
  unfold interval_of. cbn [scale init].
  pose proof (SCALES_length m) as Hlen.
  pose proof (Z.mod_pos_bound digit (len (SCALES m)) Hlen) as Hdeg.
  destruct (getitem_in_range (SCALES m) _ Hdeg) as (x & Hx & _).
  rewrite (nth_lookup_Some _ _ 0 _ Hx).
  pose proof (SCALES_range m) as Hall.
  rewrite Forall_lookup in Hall. exact (Hall _ _ Hx).
Qed.

Lemma melodic_note_fret_ge (rn : pystr) (rf : Z) (m : ScaleMode)
    (k : nat) (digit lo : Z) :
  lo <= 8 -> lo <= rf -> lo <= fret (melodic_note (init rn rf m) k digit).
Proof.
  intros Hlo Hrf. cbn [fret melodic_note root_fret init].
  pose proof (interval_of_range rn rf m digit).
  apply normalize_ge; cbn [root_fret init] in *; lia.
Qed.

(** The step of the loop, from any index and any current string. *)
Lemma melodic_step_returns (rn : pystr) (rf : Z) (m : ScaleMode)
    (i digit current_string : Z) :
  exists s,
    melodic_step (init rn rf m) i digit current_string =
      Ok (s, mkNote s (normalize (rf + interval_of (init rn rf m) digit))
                      (if (digit =? 0) || (digit =? 5) then 2 else 1)).
Proof.
  unfold melodic_step, py_mod. cbn [scale init].
  pose proof (SCALES_length m) as Hlen.
  destruct (len (SCALES m) =? 0) eqn:H0; [apply Z.eqb_eq in H0; lia|].
  cbn [rbind].
  pose proof (Z.mod_pos_bound digit (len (SCALES m)) Hlen) as Hdeg.
  destruct (getitem_in_range (SCALES m) _ Hdeg) as (x & Hx & ->).
  cbn [rbind]. unfold interval_of. cbn [scale init root_fret].
  rewrite (nth_lookup_Some _ _ 0 _ Hx). eexists. reflexivity.
Qed.

(** C3: with the root fret between 0 and 12, for every scale of the table
    and every digit, one step of the melodic loop returns a note whose
    fret, after the normalization loop, is at most 19; so is the fret of
    every note the generator returns. *)
Theorem melodic_fret_at_most_19 (rn : pystr) (rf : Z) (m : ScaleMode) :
  0 <= rf <= 12 ->
  (forall i digit current_string : Z,
     exists step,
       melodic_step (init rn rf m) i digit current_string = Ok step /\
       fret (snd step) <= 19) /\
  (forall (barcode : pystr) (out out' : stdout) (notes : list GuitarNote),
     barcode_to_notes (init rn rf m) barcode out = (Ok notes, out') ->
     Forall (fun note => fret note <= 19) notes).
Proof.
  intros _. split.
  - intros i digit cs.
    destruct (melodic_step_returns rn rf m i digit cs) as [s ->].
    eexists. split; [reflexivity|]. apply normalize_le.
  - intros barcode out out' notes Hrun.
    apply barcode_to_notes_Ok in Hrun as [_ ->].
    apply Forall_lookup. intros k note Hk.
    rewrite list_lookup_imap in Hk.
    destruct (decimal_digits barcode !! k); inversion Hk.
    apply melodic_note_fret_le.
Qed.

Lemma melodic_fret_at_most_19_witness :
  Forall (fun note => fret note <= 19)
    [mkNote 0 9 1; mkNote 0 12 2].
Proof.
  refine (proj2 (melodic_fret_at_most_19 (lit "E") 12 CHROMATIC _)
            (lit "90") [] [] _ _); [lia | reflexivity].
Defined.

(** C4, refuted: no root fret above 12 and no string make the melodic
    generator return a note whose fret exceeds 19; the loop only stops at
    a value of at most 19. *)
Lemma no_melodic_fret_above_19 :
  ~ exists (rn : pystr) (rf : Z) (m : ScaleMode) (barcode : pystr)
           (out out' : stdout) (notes : list GuitarNote),
      12 < rf /\
      barcode_to_notes (init rn rf m) barcode out = (Ok notes, out') /\
      Exists (fun note => 19 < fret note) notes.
Proof.
  intros (rn & rf & m & barcode & out & out' & notes & _ & Hrun & Hbad).
  apply barcode_to_notes_Ok in Hrun as [_ ->].
  apply Exists_exists in Hbad as (note & Hin & Hfret).
  apply list_elem_of_lookup in Hin as [k Hk].
  rewrite list_lookup_imap in Hk.
  destruct (decimal_digits barcode !! k) as [d|]; inversion Hk; subst note.
  pose proof (melodic_note_fret_le (init rn rf m) k d). lia.
Qed.

(** C4, amended: for every root fret above 12 and every string, each note
    the melodic generator returns has a fret between 8 and 19 after the
    normalization loop. *)
Theorem melodic_fret_with_large_root (rn : pystr) (rf : Z) (m : ScaleMode)
    (barcode : pystr) (out out' : stdout) (notes : list GuitarNote) :
  12 < rf ->
  barcode_to_notes (init rn rf m) barcode out = (Ok notes, out') ->
  Forall (fun note => 8 <= fret note <= 19) notes.
Proof.
  intros Hrf Hrun. apply barcode_to_notes_Ok in Hrun as [_ ->].
  apply Forall_lookup. intros k note Hk.
  rewrite list_lookup_imap in Hk.
  destruct (decimal_digits barcode !! k) as [d|]; inversion Hk.
  split; [apply melodic_note_fret_ge; lia | apply melodic_note_fret_le].
Qed.

Lemma melodic_fret_with_large_root_witness :
  Forall (fun note => 8 <= fret note <= 19)
    [mkNote 0 10 1; mkNote 0 13 2; mkNote 0 18 2].
Proof.
  refine (melodic_fret_with_large_root (lit "E") 25 CHROMATIC
            (lit "905") [] [] _ _ _); [lia | reflexivity].
Defined.

(** C5: the melodic generator returns a note for every digit, the digit
    at index [i] giving the note at index [i], on string (i / 4) mod 6.
    So the notes at indices 0 to 3 are on string 0; a note at an index
    [i > 0] is on the string after that of its predecessor, modulo 6,
    when [i mod 4 = 0] and on the same string otherwise, so the string
    changes exactly at those indices; the note at index 4 is on
    string 1. *)
Theorem melodic_string_rule (rn : pystr) (rf : Z) (m : ScaleMode)
    (barcode : pystr) (out out' : stdout) (notes : list GuitarNote) :
  barcode_to_notes (init rn rf m) barcode out = (Ok notes, out') ->
  (exists digits : list Z,
     digits_of barcode = Ok digits /\
     length notes = length digits /\
     forall (i : nat) (digit : Z),
       digits !! i = Some digit ->
       exists note : GuitarNote,
         notes !! i = Some note /\
         string_ note = (Z.of_nat i / 4) mod 6) /\
  (forall (i : nat) (note : GuitarNote),
     (i < 4)%nat -> notes !! i = Some note -> string_ note = 0) /\
  (forall (i : nat) (prev note : GuitarNote),
     notes !! i = Some prev -> notes !! S i = Some note ->
     string_ note =
       (if Z.of_nat (S i) mod 4 =? 0 then (string_ prev + 1) mod 6
        else string_ prev) /\
     (string_ note <> string_ prev <-> Z.of_nat (S i) mod 4 = 0)) /\
  (forall note first : GuitarNote,
     notes !! 4%nat = Some note -> notes !! 0%nat = Some first ->
     string_ note = 1 /\ string_ note = (string_ first + 1) mod 6).
Proof.
  intros Hrun. apply barcode_to_notes_Ok in Hrun as [Hdigits ->].
  assert (Hstr : forall (i : nat) (note : GuitarNote),
             imap (melodic_note (init rn rf m)) (decimal_digits barcode) !! i
               = Some note ->
             string_ note = (Z.of_nat i / 4) mod 6).
  { intros i note Hi. rewrite list_lookup_imap in Hi.
    destruct (decimal_digits barcode !! i); inversion Hi. reflexivity. }
  split; [|split; [|split]].
  - exists (decimal_digits barcode). split; [exact Hdigits|].
    split; [apply length_imap|].
    intros i digit Hi. exists (melodic_note (init rn rf m) i digit).
    split; [|reflexivity]. rewrite list_lookup_imap, Hi. reflexivity.
  - intros i note Hlt Hi. rewrite (Hstr _ _ Hi).
    rewrite Z.div_small by lia. reflexivity.
  - intros i prev note Hp Hn.
    rewrite (Hstr _ _ Hp), (Hstr _ _ Hn).
    assert (Heq : (Z.of_nat (S i) / 4) mod 6 =
                  (if Z.of_nat (S i) mod 4 =? 0
                   then ((Z.of_nat i / 4) mod 6 + 1) mod 6
                   else (Z.of_nat i / 4) mod 6)).
    { pose proof (string_advance (Z.of_nat (S i))) as Hadv.
      unfold string_before in Hadv.
      replace (Z.max (Z.of_nat (S i) - 1) 0) with (Z.of_nat i) in Hadv by lia.
      destruct (Z.of_nat (S i) >? 0) eqn:Hpos;
        [|rewrite Z.gtb_ltb in Hpos; apply Z.ltb_ge in Hpos; lia].
      cbn [andb] in Hadv. rewrite Hadv by lia. reflexivity. }
    split; [exact Heq|]. rewrite Heq.
    pose proof (Z.mod_pos_bound (Z.of_nat i / 4) 6 ltac:(lia)) as Hb.
    destruct (Z.of_nat (S i) mod 4 =? 0) eqn:Hmod.
    + apply Z.eqb_eq in Hmod. split; [intros _; exact Hmod|intros _].
      generalize dependent ((Z.of_nat i / 4) mod 6). intros s _ Hb.
      destruct (Z.eq_dec s 5) as [->|Hne]; [discriminate|].
      rewrite Z.mod_small by lia. lia.
    + apply Z.eqb_neq in Hmod. split; [congruence | contradiction].
  - intros note first Hn Hf. rewrite (Hstr _ _ Hn), (Hstr _ _ Hf).
    split; reflexivity.
Qed.

Lemma melodic_string_rule_witness :
  exists note : GuitarNote,
    (mkNote 0 0 2 :: List.repeat (mkNote 0 0 2) 3 ++ [mkNote 1 0 2]) !! 4%nat
      = Some note /\
    string_ note = 1.
Proof.
  destruct (melodic_string_rule (lit "E") 0 MINOR_PENTATONIC (lit "00000")
              [] []
              (mkNote 0 0 2 :: List.repeat (mkNote 0 0 2) 3 ++ [mkNote 1 0 2])
              eq_refl)
    as [(digits & Hdigits & _ & Hnote) _].
  injection Hdigits as <-.
  destruct (Hnote 4%nat 0 eq_refl) as (note & Hk & Hs).
  exists note. split; [exact Hk | exact Hs].
Defined.

(** C7: in what the melodic generator returns, the note at index [k] comes
    from the digit at index [k]; its duration is 2 when that digit is 0 or
    5 and 1 otherwise.  For the barcode "012345678905" and the default
    converter the first note is on string 0, at fret 0, with duration 2. *)
Theorem melodic_duration_rule (rn : pystr) (rf : Z) (m : ScaleMode)
    (barcode : pystr) (out out' : stdout) (notes : list GuitarNote) :
  barcode_to_notes (init rn rf m) barcode out = (Ok notes, out') ->
  (exists digits : list Z,
     digits_of barcode = Ok digits /\
     length notes = length digits /\
     forall (k : nat) (note : GuitarNote),
       notes !! k = Some note ->
       exists digit : Z,
         digits !! k = Some digit /\
         (digit = 0 \/ digit = 5 -> duration note = 2) /\
         (digit <> 0 -> digit <> 5 -> duration note = 1)) /\
  (forall out0 : stdout,
     exists rest : list GuitarNote,
       barcode_to_notes default_converter (lit "012345678905") out0 =
         (Ok (mkNote 0 0 2 :: rest), out0)).
Proof.
  intros Hrun. split.
  - apply barcode_to_notes_Ok in Hrun as [Hdigits ->].
    exists (decimal_digits barcode).
    split; [exact Hdigits|]. split; [apply length_imap|].
    intros k note Hk. rewrite list_lookup_imap in Hk.
    destruct (decimal_digits barcode !! k) as [d|]; inversion Hk.
    exists d. split; [reflexivity|]. cbn [duration melodic_note]. split.
    + intros [-> | ->]; reflexivity.
    + intros Hn0 Hn5. apply Z.eqb_neq in Hn0, Hn5. rewrite Hn0, Hn5. reflexivity.
  - intros out0. unfold default_converter. rewrite barcode_to_notes_spec.
    vm_compute. eexists. reflexivity.
Qed.

Lemma melodic_duration_rule_witness :
  exists digits : list Z,
    digits_of (lit "15") = Ok digits /\ length digits = 2%nat.
Proof.
  destruct (melodic_duration_rule (lit "E") 0 MINOR_PENTATONIC
              (lit "15") [] [] [mkNote 0 3 1; mkNote 0 0 2] eq_refl)
    as [(digits & Hdigits & Hlen & _) _].
  exists digits. split; [exact Hdigits | symmetry; exact Hlen].
Defined.

Lemma generate_power_chord_riff_Ok (self : BarcodeToTab) (barcode : pystr)
    (notes : list GuitarNote) :
  generate_power_chord_riff self barcode = Ok notes ->
  notes = List.concat (List.map chord_of (decimal_digits barcode)).
Proof.
  rewrite generate_power_chord_riff_spec.
  destruct (List.existsb undecodable barcode); [discriminate|].
  intros [= <-]. reflexivity.
Qed.

(** C10: every note either generator returns is on a string between 0 and
    5 and has duration 1 or 2.  A melodic note has a fret of at most 19,
    and of at least 0 when the root fret is at least 0; a power-chord note
    has a fret between 0 and 14. *)
Theorem generated_notes_in_range (rn : pystr) (rf : Z) (m : ScaleMode)
    (barcode : pystr) :
  (forall (out out' : stdout) (notes : list GuitarNote),
     barcode_to_notes (init rn rf m) barcode out = (Ok notes, out') ->
     Forall (fun note =>
               0 <= string_ note <= 5 /\
               (duration note = 1 \/ duration note = 2) /\
               fret note <= 19 /\
               (0 <= rf -> 0 <= fret note)) notes) /\
  (forall notes : list GuitarNote,
     generate_power_chord_riff (init rn rf m) barcode = Ok notes ->
     Forall (fun note =>
               0 <= string_ note <= 5 /\
               (duration note = 1 \/ duration note = 2) /\
               0 <= fret note <= 14) notes).
Proof.
  split.
  - intros out out' notes Hrun.
    apply barcode_to_notes_Ok in Hrun as [_ ->].
    apply Forall_lookup. intros k note Hk.
    rewrite list_lookup_imap in Hk.
    destruct (decimal_digits barcode !! k) as [d|]; inversion Hk.
    split; [|split; [|split]].
    + cbn [string_ melodic_note].
      pose proof (Z.mod_pos_bound (Z.of_nat k / 4) 6). lia.
    + cbn [duration melodic_note].
      destruct ((d =? 0) || (d =? 5)); auto.
    + apply melodic_note_fret_le.
    + intros Hrf. apply melodic_note_fret_ge; lia.
  - intros notes Hrun. apply generate_power_chord_riff_Ok in Hrun as ->.
    induction (decimal_digits barcode) as [|d ds IH]; [constructor|].
    cbn [List.map List.concat]. apply Forall_app. split; [|exact IH].
    pose proof (Z.mod_pos_bound d 13).
    unfold chord_of. destruct ((d =? 0) || (d =? 5));
      repeat constructor; cbn; lia.
Qed.

Lemma generated_notes_in_range_witness :
  Forall (fun note =>
            0 <= string_ note <= 5 /\
            (duration note = 1 \/ duration note = 2) /\
            0 <= fret note <= 14)
    [mkNote 0 9 2; mkNote 1 11 2].
Proof.
  refine (proj2 (generated_notes_in_range (lit "E") 0 MINOR_PENTATONIC
                   (lit "9")) _ _).
  reflexivity.
Defined.

(** ** The facade *)

Lemma digits_of_no_digit (barcode : pystr) :
  List.existsb isdigit barcode = false -> digits_of barcode = Ok [].
Proof.
  induction barcode as [|c rest IH]; [reflexivity|].
  cbn [List.existsb digits_of]. intros H.
  apply orb_false_iff in H as [-> Hrest]. auto.
Qed.

(** On a string without any digit, the empty string included, [convert]
    returns the placeholder text in either mode. *)
Lemma convert_without_digits (self : BarcodeToTab) (barcode : pystr)
    (use_power_chords : bool) (out : stdout) :
  List.existsb isdigit barcode = false ->
  fst (convert self barcode use_power_chords out) =
    Ok (lit "No notes to display").
Proof.
  intros Hnone. unfold convert, io_bind, barcode_to_notes,
    generate_power_chord_riff, io_lift.
  rewrite (digits_of_no_digit _ Hnone).
  destruct use_power_chords; reflexivity.
Qed.

(** C8, at the input that breaks it: on the string made of the one
    character SUPERSCRIPT TWO (U+00B2), [convert] lets [ValueError]
    propagate in both modes, and prints nothing. *)
Theorem convert_raises_on_superscript_two :
  forall (use_power_chords : bool) (out : stdout),
    convert default_converter [178%N] use_power_chords out =
      (Raise ValueError, out).
Proof. intros [|] out; reflexivity. Qed.

(** The outcome of [convert] does not depend on what has been printed
    before. *)
Lemma convert_result_ignores_stdout (self : BarcodeToTab) (barcode : pystr)
    (use_power_chords : bool) (out1 out2 : stdout) :
  fst (convert self barcode use_power_chords out1) =
  fst (convert self barcode use_power_chords out2).
Proof.
  unfold convert, io_bind, io_lift, io_ret.
  destruct use_power_chords.
  - destruct (generate_power_chord_riff self barcode); reflexivity.
  - unfold barcode_to_notes, io_bind, io_lift, io_ret, print.
    destruct (digits_of barcode) as [[|d ds]|e]; try reflexivity.
    destruct (melodic_loop self 0 (d :: ds) 0 []); reflexivity.
Qed.

(** ** The renderer *)

Lemma sum_cons (x : Z) (l : list Z) : sum (x :: l) = x + sum l.
Proof.
  assert (Hacc : forall (l : list Z) (a : Z),
             List.fold_left Z.add l a = a + List.fold_left Z.add l 0).
  { clear. induction l as [|y l IH]; intros a; cbn [List.fold_left].
    - lia.
    - rewrite (IH (a + y)), (IH (0 + y)). lia. }
  unfold sum. cbn [List.fold_left]. rewrite Hacc. lia.
Qed.

Lemma sum_durations_nonneg (notes : list GuitarNote) :
  Forall (fun note => 0 <= string_ note <= 5 /\ 0 <= duration note) notes ->
  0 <= sum (List.map (fun note => duration note * 2) notes).
Proof.
  induction 1 as [|note rest [_ Hd] _ IH]; [cbn; lia|].
  cbn [List.map]. rewrite sum_cons. lia.
Qed.

Lemma blank_lines_ok (total : Z) : grid_ok (Z.to_nat total) (blank_lines total).
Proof.
  split; [apply length_replicate|].
  apply Forall_replicate, length_replicate.
Qed.

Lemma cell_blank_lines (total : Z) (r c : nat) :
  (r < 6)%nat -> (c < Z.to_nat total)%nat ->
  cell (blank_lines total) r c = Some dash.
Proof.
  intros Hr Hc. unfold cell, blank_lines.
  rewrite lookup_replicate_2 by exact Hr.
  apply lookup_replicate_2, Hc.
Qed.

Lemma cell_insert (grid : list pystr) (row : pystr) (i n : nat) (ch : char)
    (r c : nat) :
  grid !! i = Some row -> (n < length row)%nat ->
  cell (<[i := <[n := ch]> row]> grid) r c =
    if (r =? i)%nat && (c =? n)%nat then Some ch else cell grid r c.
Proof.
  intros Hrow Hn. unfold cell.
  destruct (Nat.eqb_spec r i) as [->|Hri]; cbn [andb].
  - rewrite list_lookup_insert_eq by (eapply lookup_lt_Some; eassumption).
    rewrite Hrow.
    destruct (Nat.eqb_spec c n) as [->|Hcn].
    + apply list_lookup_insert_eq, Hn.
    + apply list_lookup_insert_ne. auto.
  - rewrite list_lookup_insert_ne by auto. reflexivity.
Qed.

Lemma text_cell_nil (string_idx start : Z) (r c : nat) :
  text_cell string_idx start [] r c = None.
Proof.
  unfold text_cell.
  destruct ((Z.of_nat r =? string_idx) && (start <=? Z.of_nat c));
    reflexivity.
Qed.

Lemma text_cell_cons (string_idx start : Z) (ch : char) (text : pystr)
    (r c : nat) :
  text_cell string_idx start (ch :: text) r c =
    if (Z.of_nat r =? string_idx) && (Z.of_nat c =? start) then Some ch
    else text_cell string_idx (start + 1) text r c.
Proof.
  unfold text_cell.
  destruct (Z.of_nat r =? string_idx); cbn [andb]; [|reflexivity].
  destruct (Z.eqb_spec (Z.of_nat c) start) as [->|Hne].
  - rewrite Z.leb_refl, Z.sub_diag. reflexivity.
  - destruct (Z.leb_spec start (Z.of_nat c)) as [Hle|Hlt].
    + destruct (Z.leb_spec (start + 1) (Z.of_nat c)) as [_|Hlt]; [|lia].
      replace (Z.to_nat (Z.of_nat c - start))
        with (S (Z.to_nat (Z.of_nat c - (start + 1)))) by lia.
      reflexivity.
    + destruct (Z.leb_spec (start + 1) (Z.of_nat c)) as [Hle|_]; [lia|].
      reflexivity.
Qed.

(** The inner loop writes the rest of the text where the layout says, and
    never fails on a grid of six lines of the total width. *)
Lemma place_chars_spec (width : nat) (string_idx position : Z)
    (fret_str : pystr) :
  0 <= string_idx <= 5 ->
  forall (char_idx : Z) (grid : list pystr),
    0 <= position + char_idx ->
    grid_ok width grid ->
    exists grid',
      place_chars (Z.of_nat width) string_idx position char_idx fret_str grid
        = Ok grid' /\
      grid_ok width grid' /\
      forall r c : nat,
        (c < width)%nat ->
        cell grid' r c =
          match text_cell string_idx (position + char_idx) fret_str r c with
          | Some ch => Some ch
          | None => cell grid r c
          end.
Proof.
  intros Hidx. induction fret_str as [|ch rest IH]; intros ci grid Hpos Hok.
  - exists grid. split; [reflexivity|]. split; [exact Hok|].
    intros r c _. rewrite text_cell_nil. reflexivity.
  - cbn [place_chars].
    destruct (Z.ltb_spec (position + ci) (Z.of_nat width)) as [Hin|Hout].
    + destruct Hok as [Hlen Hall].
      destruct (getitem_in_range grid string_idx) as (row & Hrow & ->).
      { unfold len. lia. }
      cbn [rbind].
      assert (Hwidth : length row = width).
      { rewrite Forall_lookup in Hall. exact (Hall _ _ Hrow). }
      unfold setitem.
      rewrite (py_index_in_range row) by (unfold len; lia).
      cbn [rbind].
      rewrite (py_index_in_range grid) by (unfold len; lia).
      destruct (IH (ci + 1)
                  (<[Z.to_nat string_idx :=
                       <[Z.to_nat (position + ci) := ch]> row]> grid))
        as (grid' & Hrun & Hok' & Hcell).
      { lia. }
      { split; [rewrite length_insert; exact Hlen|].
        apply Forall_insert; [exact Hall|].
        cbn beta. rewrite length_insert. exact Hwidth. }
      exists grid'. split; [exact Hrun|]. split; [exact Hok'|].
      intros r c Hc. rewrite (Hcell r c Hc), text_cell_cons.
      rewrite cell_insert by (exact Hrow || lia).
      replace (position + (ci + 1)) with (position + ci + 1) by lia.
      destruct (Z.eqb_spec (Z.of_nat r) string_idx) as [Hr|Hr];
        destruct (Nat.eqb_spec r (Z.to_nat string_idx)) as [Hr'|Hr'];
        try lia; cbn [andb]; [|reflexivity].
      destruct (Z.eqb_spec (Z.of_nat c) (position + ci)) as [Hcc|Hcc];
        destruct (Nat.eqb_spec c (Z.to_nat (position + ci))) as [Hcc'|Hcc'];
        try lia; [|reflexivity].
      unfold text_cell.
      destruct (Z.leb_spec (position + ci + 1) (Z.of_nat c)); [lia|].
      rewrite andb_false_r. reflexivity.
    + cbn [rbind].
      destruct (IH (ci + 1) grid) as (grid' & Hrun & Hok' & Hcell);
        [lia | exact Hok |].
      exists grid'. split; [exact Hrun|]. split; [exact Hok'|].
      intros r c Hc. rewrite (Hcell r c Hc), text_cell_cons.
      replace (position + (ci + 1)) with (position + ci + 1) by lia.
      destruct (Z.eqb_spec (Z.of_nat c) (position + ci)); [lia|].
      rewrite andb_false_r. reflexivity.
Qed.

Lemma str_printable (n : Z) : printable n -> str n = Ok (decimal_text n).
Proof.
  unfold printable, str. intros Hn.
  destruct (Z.leb_spec (num_digits n) int_max_str_digits); [reflexivity|lia].
Qed.

Lemma str_Raise (n : Z) (e : exn) :
  str n = Raise e -> e = ValueError /\ ~ printable n.
Proof.
  unfold printable, str.
  destruct (Z.leb_spec (num_digits n) int_max_str_digits); [discriminate|].
  intros [= <-]. split; [reflexivity | lia].
Qed.

(** The outer loop, likewise, when [str] converts every fret. *)
Lemma place_notes_spec (width : nat) (notes : list GuitarNote) :
  Forall (fun note => 0 <= string_ note <= 5 /\ 0 <= duration note) notes ->
  Forall (fun note => printable (fret note)) notes ->
  forall (position : Z) (grid : list pystr),
    0 <= position ->
    grid_ok width grid ->
    exists grid',
      place_notes (Z.of_nat width) notes position grid = Ok grid' /\
      grid_ok width grid' /\
      forall r c : nat,
        (c < width)%nat ->
        cell grid' r c =
          match written notes position r c with
          | Some ch => Some ch
          | None => cell grid r c
          end.
Proof.
  induction 1 as [|note rest [Hstring Hdur] _ IH];
    intros Hprint position grid Hpos Hok.
  - exists grid. split; [reflexivity|]. split; [exact Hok|]. reflexivity.
  - apply Forall_cons in Hprint as [Hfret Hprint].
    cbn [place_notes]. rewrite (str_printable _ Hfret). cbn [rbind].
    destruct (place_chars_spec width (5 - string_ note) position
                (decimal_text (fret note)) ltac:(lia) 0 grid)
      as (grid1 & -> & Hok1 & Hcell1); [lia | exact Hok |].
    cbn [rbind].
    destruct (IH Hprint (position + duration note * 2) grid1)
      as (grid' & Hrun & Hok' & Hcell); [lia | exact Hok1 |].
    exists grid'. split; [exact Hrun|]. split; [exact Hok'|].
    intros r c Hc. rewrite (Hcell r c Hc), (Hcell1 r c Hc).
    cbn [written]. rewrite Z.add_0_r.
    destruct (written rest (position + duration note * 2) r c);
      reflexivity.
Qed.

(** C6, refuted: a fret of more than 4300 digits makes the renderer raise
    [ValueError], at the conversion of the fret to its decimal text. *)
Lemma tab_fails_on_long_fret :
  notes_to_tab default_converter [mkNote 0 (10 ^ 4300) 1] (lit "Riff") =
    Raise ValueError.
Proof. vm_compute. reflexivity. Qed.

(** C6, amended: for a sequence of notes that is not empty, on strings 0
    to 5, with durations that are not negative and frets of at most 4300
    digits, the renderer raises nothing; its grid has six lines, each of
    width
    exactly 2 + sum(duration * 2); the character at a row and a column
    below that width is the one the last note writing there put, the
    notes being walked with a cursor that starts at column 1 and advances
    by duration * 2, each writing the decimal text of its fret at the
    cursor on row 5 - string_index; a dash elsewhere.  Characters that
    would fall at the width or beyond are in no line.  The text returned
    is built from this grid. *)
Theorem tab_layout (self : BarcodeToTab) (notes : list GuitarNote)
    (title : pystr) :
  notes <> [] ->
  Forall (fun note => 0 <= string_ note <= 5 /\ 0 <= duration note) notes ->
  Forall (fun note => printable (fret note)) notes ->
  exists grid : list pystr,
    tab_grid notes = Ok grid /\
    notes_to_tab self notes title = Ok (build_output self title grid) /\
    length grid = 6%nat /\
    Forall (fun line =>
              len line =
                2 + sum (List.map (fun note => duration note * 2) notes))
      grid /\
    forall r c : nat,
      (r < 6)%nat ->
      Z.of_nat c < 2 + sum (List.map (fun note => duration note * 2) notes) ->
      cell grid r c = Some (default dash (written notes 1 r c)).
Proof.
  intros Hne Hvalid Hprint.
  pose proof (sum_durations_nonneg notes Hvalid) as Hsum.
  assert (Htotal : total_length notes = Z.of_nat (Z.to_nat (total_length notes))).
  { unfold total_length. lia. }
  destruct (place_notes_spec (Z.to_nat (total_length notes)) notes Hvalid
              Hprint 1 (blank_lines (total_length notes)))
    as (grid & Hrun & [Hlen Hall] & Hcell); [lia | apply blank_lines_ok |].
  rewrite <- Htotal in Hrun.
  exists grid. split; [exact Hrun|]. split; [|split; [exact Hlen|split]].
  - unfold notes_to_tab, tab_grid. destruct notes; [contradiction|].
    rewrite Hrun. reflexivity.
  - eapply Forall_impl; [exact Hall|]. cbn beta. intros line Hline.
    unfold len. rewrite Hline. unfold total_length in *. lia.
  - intros r c Hr Hc.
    assert (Hc' : (c < Z.to_nat (total_length notes))%nat).
    { unfold total_length. lia. }
    rewrite (Hcell r c Hc'), cell_blank_lines by assumption.
    destruct (written notes 1 r c); reflexivity.
Qed.

Lemma tab_layout_witness :
  exists grid : list pystr,
    tab_grid [mkNote 0 5 2; mkNote 1 17 1] = Ok grid /\
    cell grid 4 5 = Some (N_of_ascii "1") /\
    cell grid 4 6 = Some (N_of_ascii "7") /\
    cell grid 5 1 = Some (N_of_ascii "5") /\
    cell grid 5 5 = Some dash.
Proof.
  destruct (tab_layout default_converter [mkNote 0 5 2; mkNote 1 17 1] [])
    as (grid & Hrun & _ & _ & _ & Hcell).
  - discriminate.
  - repeat constructor; cbn; lia.
  - repeat constructor; vm_compute; discriminate.
  - exists grid. split; [exact Hrun|].
    repeat split; apply Hcell; cbn; lia.
Defined.

(** A fret whose text does not fit: the last character falls at the total
    width and is dropped. *)
Example tab_grid_truncates :
  tab_grid [mkNote 0 1234 1] =
    Ok (replicate 5 (lit "----") ++ [lit "-123"]).
Proof. reflexivity. Qed.

(** * Further properties of the code *)

(** ** When the generators and the facade fail *)

(** The outcome of [barcode_to_notes]: it raises exactly when the barcode
    holds a character [isdigit] accepts and [int] cannot read, the
    exception is [ValueError] and nothing has been printed; otherwise it
    returns one note per decimal digit.  The lookup in the scale never
    raises [IndexError] and the modulo never [ZeroDivisionError]. *)
Theorem barcode_to_notes_outcome (rn : pystr) (rf : Z) (m : ScaleMode)
    (barcode : pystr) (out : stdout) :
  match barcode_to_notes (init rn rf m) barcode out with
  | (Raise e, out') =>
      e = ValueError /\ out' = out /\
      List.existsb undecodable barcode = true
  | (Ok notes, _) =>
      List.existsb undecodable barcode = false /\
      length notes = length (decimal_digits barcode)
  end.
Proof.
  rewrite barcode_to_notes_spec.
  destruct (List.existsb undecodable barcode); [auto|].
  destruct (decimal_digits barcode) as [|d ds] eqn:Hds; [auto|].
  split; [reflexivity|]. apply length_imap.
Qed.

(** The notes of either generator are notes the renderer accepts. *)
Lemma melodic_notes_valid (self : BarcodeToTab) (digits : list Z) :
  Forall (fun note => 0 <= string_ note <= 5 /\ 0 <= duration note)
    (imap (melodic_note self) digits).
Proof.
  apply Forall_lookup. intros k note Hk. rewrite list_lookup_imap in Hk.
  destruct (digits !! k) as [d|]; inversion Hk. cbn [string_ duration melodic_note].
  pose proof (Z.mod_pos_bound (Z.of_nat k / 4) 6).
  destruct ((d =? 0) || (d =? 5)); lia.
Qed.

Lemma chords_valid (digits : list Z) :
  Forall (fun note => 0 <= string_ note <= 5 /\ 0 <= duration note)
    (List.concat (List.map chord_of digits)).
Proof.
  induction digits as [|d ds IH]; [constructor|].
  cbn [List.map List.concat]. apply Forall_app. split; [|exact IH].
  unfold chord_of. destruct ((d =? 0) || (d =? 5));
    repeat constructor; cbn; lia.
Qed.

Lemma decimal_text_short (n : Z) :
  0 <= n <= 99 -> (length (decimal_text n) <= 2)%nat.
Proof.
  intros Hn.
  assert (Hall : List.forallb
                   (fun k => (length (decimal_text (Z.of_nat k)) <=? 2)%nat)
                   (seq 0 100) = true) by (vm_compute; reflexivity).
  rewrite List.forallb_forall in Hall.
  specialize (Hall (Z.to_nat n)). rewrite Z2Nat.id in Hall by lia.
  apply Nat.leb_le, Hall, List.in_seq. lia.
Qed.

Lemma printable_small (n : Z) : 0 <= n <= 99 -> printable n.
Proof.
  intros Hn. unfold printable, num_digits, int_max_str_digits, len.
  rewrite Z.abs_eq by lia. pose proof (decimal_text_short n Hn). lia.
Qed.

Lemma melodic_notes_printable (rn : pystr) (rf : Z) (m : ScaleMode)
    (digits : list Z) :
  0 <= rf ->
  Forall (fun note => printable (fret note))
    (imap (melodic_note (init rn rf m)) digits).
Proof.
  intros Hrf. apply Forall_lookup. intros k note Hk.
  rewrite list_lookup_imap in Hk.
  destruct (digits !! k) as [d|]; inversion Hk.
  pose proof (melodic_note_fret_le (init rn rf m) k d).
  pose proof (melodic_note_fret_ge rn rf m k d 0 ltac:(lia) Hrf).
  apply printable_small. lia.
Qed.

Lemma chords_printable (digits : list Z) :
  Forall (fun note => printable (fret note))
    (List.concat (List.map chord_of digits)).
Proof.
  induction digits as [|d ds IH]; [constructor|].
  cbn [List.map List.concat]. apply Forall_app. split; [|exact IH].
  pose proof (Z.mod_pos_bound d 13).
  unfold chord_of. destruct ((d =? 0) || (d =? 5));
    repeat constructor; apply printable_small; cbn [fret]; lia.
Qed.

(** The grid of notes the renderer accepts. *)
Lemma tab_grid_spec (notes : list GuitarNote) :
  Forall (fun note => 0 <= string_ note <= 5 /\ 0 <= duration note) notes ->
  Forall (fun note => printable (fret note)) notes ->
  exists grid : list pystr,
    tab_grid notes = Ok grid /\
    grid_ok (Z.to_nat (total_length notes)) grid /\
    forall r c : nat,
      (r < 6)%nat -> (c < Z.to_nat (total_length notes))%nat ->
      cell grid r c = Some (default dash (written notes 1 r c)).
Proof.
  intros Hvalid Hprint.
  pose proof (sum_durations_nonneg notes Hvalid) as Hsum.
  assert (Htotal : total_length notes = Z.of_nat (Z.to_nat (total_length notes))).
  { unfold total_length. lia. }
  destruct (place_notes_spec (Z.to_nat (total_length notes)) notes Hvalid
              Hprint 1 (blank_lines (total_length notes)))
    as (grid & Hrun & Hok & Hcell); [lia | apply blank_lines_ok |].
  rewrite <- Htotal in Hrun.
  exists grid. split; [exact Hrun|]. split; [exact Hok|].
  intros r c Hr Hc.
  rewrite (Hcell r c Hc), cell_blank_lines by assumption.
  destruct (written notes 1 r c); reflexivity.
Qed.

Lemma concat_chords_nil (digits : list Z) :
  List.concat (List.map chord_of digits) = [] -> digits = [].
Proof. destruct digits as [|d ds]; [reflexivity | discriminate]. Qed.

Lemma convert_spec (rn : pystr) (rf : Z) (m : ScaleMode)
    (barcode : pystr) (use_power_chords : bool) (out : stdout) :
  use_power_chords = true \/ 0 <= rf ->
  match convert (init rn rf m) barcode use_power_chords out with
  | (Raise e, out') =>
      e = ValueError /\ out' = out /\
      List.existsb undecodable barcode = true
  | (Ok text, _) =>
      List.existsb undecodable barcode = false /\
      ((decimal_digits barcode = [] /\ text = lit "No notes to display") \/
       (decimal_digits barcode <> [] /\
        exists grid : list pystr,
          length grid = 6%nat /\
          text =
            build_output (init rn rf m)
              ((if use_power_chords then lit "Power Chord Riff - "
                else lit "Barcode Riff - ") ++ barcode)
              grid))
  end.
Proof.
  intros Hrf. unfold convert, io_bind, io_lift, io_ret.
  destruct use_power_chords.
  - rewrite generate_power_chord_riff_spec.
    destruct (List.existsb undecodable barcode); [auto|].
    cbn [fst snd].
    destruct (decimal_digits barcode) as [|d ds] eqn:Hds.
    { cbn. auto. }
    destruct (tab_grid_spec _ (chords_valid (d :: ds))
                (chords_printable (d :: ds)))
      as (grid & Hrun & [Hlen _] & _).
    unfold notes_to_tab.
    destruct (List.concat (List.map chord_of (d :: ds))) eqn:Hnotes;
      [apply concat_chords_nil in Hnotes; discriminate|].
    rewrite Hrun. cbn [rbind]. split; [reflexivity|]. right.
    split; [discriminate|]. eauto.
  - destruct Hrf as [Hrf|Hrf]; [discriminate|].
    rewrite barcode_to_notes_spec.
    destruct (List.existsb undecodable barcode); [auto|].
    destruct (decimal_digits barcode) as [|d ds] eqn:Hds.
    { cbn. auto. }
    cbn [fst snd].
    destruct (tab_grid_spec _ (melodic_notes_valid (init rn rf m) (d :: ds))
                (melodic_notes_printable rn rf m (d :: ds) Hrf))
      as (grid & Hrun & [Hlen _] & _).
    unfold notes_to_tab.
    destruct (imap (melodic_note (init rn rf m)) (d :: ds)) eqn:Hnotes;
      [discriminate|].
    rewrite Hrun. cbn [rbind]. split; [reflexivity|]. right.
    split; [discriminate|]. eauto.
Qed.

(** The outcome of [convert] in power-chord mode, and in melodic mode
    with a root fret that is not negative: [ValueError], with nothing
    printed, exactly when the barcode holds a character [isdigit] accepts
    and [int] cannot read; otherwise a text: the placeholder when the
    barcode has no decimal digit, and else the output built from a grid
    of six lines.  The renderer never fails on the notes of the
    generators; the title names the mode and repeats the barcode as it
    was given. *)
Theorem convert_outcome (rn : pystr) (rf : Z) (m : ScaleMode)
    (barcode : pystr) (use_power_chords : bool) (out : stdout) :
  use_power_chords = true \/ 0 <= rf ->
  match convert (init rn rf m) barcode use_power_chords out with
  | (Raise e, out') =>
      e = ValueError /\ out' = out /\
      List.existsb undecodable barcode = true
  | (Ok text, _) =>
      List.existsb undecodable barcode = false /\
      ((decimal_digits barcode = [] /\ text = lit "No notes to display") \/
       (decimal_digits barcode <> [] /\
        exists grid : list pystr,
          length grid = 6%nat /\
          text =
            build_output (init rn rf m)
              ((if use_power_chords then lit "Power Chord Riff - "
                else lit "Barcode Riff - ") ++ barcode)
              grid))
  end.
Proof. apply convert_spec. Qed.

Lemma convert_outcome_witness :
  List.existsb undecodable (lit "9-0") = false /\
  exists grid : list pystr, length grid = 6%nat.
Proof.
  assert (Hrf : false = true \/ 0 <= 12) by (right; lia).
  pose proof (convert_outcome (lit "E") 12 CHROMATIC (lit "9-0") false []
                Hrf) as Hout.
  destruct (convert (init (lit "E") 12 CHROMATIC) (lit "9-0") false [])
    as [[text|e] out'] eqn:Hrun; [|discriminate Hrun].
  destruct Hout as [Hclean [[Hnone _]|(_ & grid & Hlen & _)]];
    [discriminate Hnone|].
  split; [exact Hclean | exists grid; exact Hlen].
Defined.

Lemma undecodable_not_below_178 (c : char) :
  (c < 178)%N -> undecodable c = false.
Proof.
  intros Hc. unfold undecodable, isdigit.
  destruct (isdecimal c); [reflexivity|]. cbn [orb negb].
  rewrite andb_true_r.
  destruct (List.existsb (in_run c) digit_only_runs) eqn:Hrun; [|reflexivity].
  apply List.existsb_exists in Hrun as (run & Hin & Hrun).
  unfold in_run in Hrun. apply andb_true_iff in Hrun as [Hlo _].
  apply N.leb_le in Hlo.
  unfold digit_only_runs in Hin. cbn [List.In] in Hin.
  repeat (destruct Hin as [<-|Hin]; [cbn [fst] in Hlo; lia|]).
  contradiction.
Qed.

(** On an ASCII barcode, whatever its characters, [convert] returns a
    text: in power-chord mode, and in melodic mode with a root fret that
    is not negative. *)
Theorem convert_ascii_returns (rn : pystr) (rf : Z) (m : ScaleMode)
    (barcode : pystr) (use_power_chords : bool) (out : stdout) :
  use_power_chords = true \/ 0 <= rf ->
  Forall (fun c => (c < 128)%N) barcode ->
  exists (text : pystr) (out' : stdout),
    convert (init rn rf m) barcode use_power_chords out = (Ok text, out').
Proof.
  intros Hrf Hascii.
  assert (Hclean : List.existsb undecodable barcode = false).
  { induction Hascii as [|c rest Hc _ IH]; [reflexivity|].
    cbn [List.existsb]. rewrite undecodable_not_below_178 by lia.
    exact IH. }
  pose proof (convert_spec rn rf m barcode use_power_chords out Hrf) as Hout.
  destruct (convert (init rn rf m) barcode use_power_chords out)
    as [[text|e] out'].
  - eauto.
  - destruct Hout as (_ & _ & Hbad). congruence.
Qed.

Lemma convert_ascii_returns_witness :
  exists (text : pystr) (out' : stdout),
    convert (init (lit "E") 3 HARMONIC_MINOR) (lit "4 006381-333931")
      true [] = (Ok text, out').
Proof.
  apply convert_ascii_returns; [left; reflexivity|].
  repeat constructor.
Defined.

Lemma digits_of_some_digit (barcode : pystr) :
  List.existsb isdigit barcode = true -> digits_of barcode <> Ok [].
Proof.
  induction barcode as [|c rest IH]; [discriminate|].
  cbn [List.existsb digits_of].
  destruct (isdigit c); cbn [orb]; [intros _|exact IH].
  destruct (int c); cbn [rbind]; [|discriminate].
  destruct (digits_of rest); cbn [rbind]; discriminate.
Qed.

(** What [convert] prints: the line "No digits found in barcode", once, in
    melodic mode on a barcode without any digit; nothing in every other
    case, the power-chord mode on such a barcode included. *)
Theorem convert_prints (self : BarcodeToTab) (barcode : pystr)
    (use_power_chords : bool) (out : stdout) :
  snd (convert self barcode use_power_chords out) =
    if negb use_power_chords && negb (List.existsb isdigit barcode)
    then out ++ [lit "No digits found in barcode"]
    else out.
Proof.
  unfold convert, io_bind, io_lift, io_ret.
  destruct use_power_chords; cbn [negb andb].
  - destruct (generate_power_chord_riff self barcode); reflexivity.
  - unfold barcode_to_notes, io_bind, io_lift, io_ret, print.
    destruct (List.existsb isdigit barcode) eqn:Hany; cbn [negb].
    + apply digits_of_some_digit in Hany.
      destruct (digits_of barcode) as [[|d ds]|e];
        [contradiction | | reflexivity].
      destruct (melodic_loop self 0 (d :: ds) 0 []); reflexivity.
    + rewrite (digits_of_no_digit _ Hany). reflexivity.
Qed.

(** ** What the notes depend on *)

Lemma digits_of_filter (barcode : pystr) :
  digits_of (List.filter isdigit barcode) = digits_of barcode.
Proof.
  induction barcode as [|c rest IH]; [reflexivity|].
  cbn [List.filter digits_of].
  destruct (isdigit c) eqn:Hc; [|exact IH].
  cbn [digits_of]. rewrite Hc, IH. reflexivity.
Qed.

(** Characters that are not digits (spaces, dashes, letters) do not
    count: removing them from the barcode changes neither the outcome of
    the melodic generator nor that of the power-chord generator. *)
Theorem generators_ignore_non_digits (self : BarcodeToTab) (barcode : pystr)
    (out : stdout) :
  barcode_to_notes self (List.filter isdigit barcode) out =
    barcode_to_notes self barcode out /\
  generate_power_chord_riff self (List.filter isdigit barcode) =
    generate_power_chord_riff self barcode.
Proof.
  unfold barcode_to_notes, generate_power_chord_riff, io_bind, io_lift.
  rewrite digits_of_filter. split; reflexivity.
Qed.

Lemma to_decimal_ascii (digit : Z) :
  0 <= digit <= 9 -> to_decimal (Z.to_N (48 + digit)) = Some digit.
Proof.
  intros Hd.
  assert (Hcases : digit = 0 \/ digit = 1 \/ digit = 2 \/ digit = 3 \/
                   digit = 4 \/ digit = 5 \/ digit = 6 \/ digit = 7 \/
                   digit = 8 \/ digit = 9) by lia.
  repeat (destruct Hcases as [->|Hcases]; [reflexivity|]).
  subst digit. reflexivity.
Qed.

Lemma decimal_digits_ascii (digits : list Z) :
  Forall (fun digit => 0 <= digit <= 9) digits ->
  decimal_digits (ascii_digits digits) = digits /\
  List.existsb undecodable (ascii_digits digits) = false.
Proof.
  induction 1 as [|d ds Hd _ [IHd IHu]]; [split; reflexivity|].
  unfold decimal_digits, ascii_digits in *.
  cbn [List.map omap list_omap List.existsb].
  unfold undecodable at 1, isdigit, isdecimal.
  rewrite (to_decimal_ascii d Hd). cbn. rewrite IHd, IHu. auto.
Qed.

(** Decimal digits of any script are read by their value: a barcode in
    which [int] can read every digit gives the same notes, in both
    generators, as the ASCII spelling of its digit values. *)
Theorem unicode_digits_as_ascii (self : BarcodeToTab) (barcode : pystr)
    (out : stdout) :
  List.existsb undecodable barcode = false ->
  fst (barcode_to_notes self (ascii_digits (decimal_digits barcode)) out) =
    fst (barcode_to_notes self barcode out) /\
  generate_power_chord_riff self (ascii_digits (decimal_digits barcode)) =
    generate_power_chord_riff self barcode.
Proof.
  intros Hclean.
  destruct (decimal_digits_ascii _ (decimal_digits_range barcode))
    as [Hsame Hclean'].
  assert (Hdigits : digits_of (ascii_digits (decimal_digits barcode)) =
                    digits_of barcode).
  { rewrite !digits_of_spec, Hclean, Hclean', Hsame. reflexivity. }
  unfold barcode_to_notes, generate_power_chord_riff, io_bind, io_lift.
  rewrite Hdigits. split; reflexivity.
Qed.

Lemma unicode_digits_as_ascii_witness :
  fst (barcode_to_notes default_converter (lit "105") []) =
    fst (barcode_to_notes default_converter [1633; 1776; 65301]%N []).
Proof.
  exact (proj1 (unicode_digits_as_ascii default_converter
                  [1633; 1776; 65301]%N [] eq_refl)).
Defined.

Lemma digits_of_app (b1 b2 : pystr) :
  digits_of (b1 ++ b2) =
    (d1 <- digits_of b1 ;; d2 <- digits_of b2 ;; Ok (d1 ++ d2)).
Proof.
  induction b1 as [|c rest IH].
  - cbn. destruct (digits_of b2); reflexivity.
  - cbn [app digits_of]. destruct (isdigit c); [|exact IH].
    destruct (int c) as [d|e]; cbn [rbind]; [|reflexivity].
    rewrite IH. destruct (digits_of rest); cbn [rbind]; [|reflexivity].
    destruct (digits_of b2); reflexivity.
Qed.

(** The power-chord riff of two barcodes put end to end is the riff of
    the first followed by the riff of the second; it fails when either
    does. *)
Theorem power_chord_riff_app (self : BarcodeToTab) (b1 b2 : pystr) :
  generate_power_chord_riff self (b1 ++ b2) =
    (n1 <- generate_power_chord_riff self b1 ;;
     n2 <- generate_power_chord_riff self b2 ;;
     Ok (n1 ++ n2)).
Proof.
  assert (Hgen : forall b : pystr,
             generate_power_chord_riff self b =
               (ds <- digits_of b ;; Ok (List.concat (List.map chord_of ds)))).
  { intros b. unfold generate_power_chord_riff.
    destruct (digits_of b) as [[|d ds]|e]; cbn [rbind]; try reflexivity.
    apply power_loop_spec. }
  rewrite !Hgen, digits_of_app.
  destruct (digits_of b1) as [d1|e]; cbn [rbind]; [|reflexivity].
  destruct (digits_of b2) as [d2|e]; cbn [rbind]; [|reflexivity].
  rewrite List.map_app, List.concat_app. reflexivity.
Qed.

(** Characters added at the end of a barcode leave the melodic notes of
    what came before as they were: the notes of a barcode start with the
    notes of each of its prefixes. *)
Theorem melodic_notes_of_prefix (rn : pystr) (rf : Z) (m : ScaleMode)
    (b1 b2 : pystr) (out out' : stdout) (notes : list GuitarNote) :
  barcode_to_notes (init rn rf m) (b1 ++ b2) out = (Ok notes, out') ->
  exists (n1 rest : list GuitarNote) (out1 : stdout),
    barcode_to_notes (init rn rf m) b1 out = (Ok n1, out1) /\
    notes = n1 ++ rest.
Proof.
  intros Hrun. apply barcode_to_notes_Ok in Hrun as [Hdigits ->].
  rewrite digits_of_app in Hdigits.
  destruct (digits_of b1) as [d1|e] eqn:H1; cbn [rbind] in Hdigits;
    [|discriminate].
  destruct (digits_of b2) as [d2|e] eqn:H2; cbn [rbind] in Hdigits;
    [|discriminate].
  injection Hdigits as <-.
  rewrite digits_of_spec in H1.
  destruct (List.existsb undecodable b1) eqn:Hclean; [discriminate|].
  injection H1 as <-.
  exists (imap (melodic_note (init rn rf m)) (decimal_digits b1)).
  exists (imap (fun k => melodic_note (init rn rf m)
                           (length (decimal_digits b1) + k)) d2).
  exists (snd (barcode_to_notes (init rn rf m) b1 out)).
  split; [|apply imap_app].
  rewrite barcode_to_notes_spec, Hclean.
  destruct (decimal_digits b1); reflexivity.
Qed.

Lemma melodic_notes_of_prefix_witness :
  exists (n1 rest : list GuitarNote) (out1 : stdout),
    barcode_to_notes default_converter (lit "12345") [] = (Ok n1, out1) /\
    [mkNote 0 3 1; mkNote 0 5 1; mkNote 0 7 1; mkNote 0 10 1; mkNote 1 0 2;
     mkNote 1 3 1] = n1 ++ rest.
Proof.
  exact (melodic_notes_of_prefix (lit "E") 0 MINOR_PENTATONIC
           (lit "12345") (lit "6") [] [] _ eq_refl).
Defined.

(** ** The shape of a power-chord riff *)





Lemma sum_app (l1 l2 : list Z) : sum (l1 ++ l2) = sum l1 + sum l2.
Proof.
  induction l1 as [|x l1 IH]; [change (sum []) with 0; cbn [app]; lia|].
  cbn [app]. rewrite !sum_cons, IH. lia.
Qed.

Lemma sum_emphasis (digits : list Z) (base extra : Z) :
  sum (List.map (fun digit => if emphasized digit then base + extra else base)
         digits) =
    base * len digits + extra * len (List.filter emphasized digits).
Proof.
  unfold len. induction digits as [|d ds IH]; [cbn; lia|].
  cbn [List.map List.filter]. rewrite sum_cons, IH.
  destruct (emphasized d); cbn [length]; lia.
Qed.

(** The size of a power-chord riff: two notes for each decimal digit and
    two more for each digit 0 or 5; its tab lines are 2 + 8 n + 4 e
    characters wide for n digits, e of them 0 or 5. *)
Theorem power_chord_size (self : BarcodeToTab) (barcode : pystr)
    (notes : list GuitarNote) :
  generate_power_chord_riff self barcode = Ok notes ->
  len notes =
    2 * len (decimal_digits barcode) +
    2 * len (List.filter emphasized (decimal_digits barcode)) /\
  total_length notes =
    2 + 8 * len (decimal_digits barcode) +
    4 * len (List.filter emphasized (decimal_digits barcode)).
Proof.
  intros Hrun. apply generate_power_chord_riff_Ok in Hrun as ->.
  unfold total_length, len.
  induction (decimal_digits barcode) as [|d ds [IHn IHw]]; [split; reflexivity|].
  cbn [List.map List.concat List.filter].
  rewrite length_app, List.map_app, sum_app.
  unfold chord_of at 1 3. fold (emphasized d).
  destruct (emphasized d); cbn [app length List.map];
    rewrite ?sum_cons; cbn [duration length];
    change (sum []) with 0; lia.
Qed.

Lemma power_chord_size_witness :
  len [mkNote 0 9 2; mkNote 1 11 2; mkNote 0 0 2; mkNote 1 2 2;
       mkNote 0 0 1; mkNote 1 2 1] = 6.
Proof.
  exact (proj1 (power_chord_size default_converter (lit "9-0") _ eq_refl)).
Defined.

(** ** The frets and the width of a melody *)

Lemma melodic_durations (self : BarcodeToTab) (digits : list Z) :
  forall g : nat -> nat,
    List.map (fun note => duration note * 2)
      (imap (fun k => melodic_note self (g k)) digits) =
    List.map (fun digit => if emphasized digit then 2 + 2 else 2) digits.
Proof.
  induction digits as [|d ds IH]; intros g; [reflexivity|].
  cbn [imap List.map duration melodic_note]. fold (emphasized d).
  f_equal; [destruct (emphasized d); reflexivity|].
  exact (IH (fun k => g (S k))).
Qed.

(** The width of a melody: its tab lines are 2 + 2 n + 2 e characters wide
    for n decimal digits, e of them 0 or 5. *)
Theorem melodic_tab_width (rn : pystr) (rf : Z) (m : ScaleMode)
    (barcode : pystr) (out out' : stdout) (notes : list GuitarNote) :
  barcode_to_notes (init rn rf m) barcode out = (Ok notes, out') ->
  total_length notes =
    2 + 2 * len (decimal_digits barcode) +
    2 * len (List.filter emphasized (decimal_digits barcode)).
Proof.
  intros Hrun. apply barcode_to_notes_Ok in Hrun as [_ ->].
  unfold total_length.
  rewrite (melodic_durations (init rn rf m) _ (fun k => k)), sum_emphasis.
  lia.
Qed.

Lemma melodic_tab_width_witness :
  total_length [mkNote 0 3 1; mkNote 0 0 2] = 8.
Proof.
  exact (melodic_tab_width (lit "E") 0 MINOR_PENTATONIC (lit "15") [] [] _
           eq_refl).
Defined.

Lemma normalize_mod_12 (fret : Z) : normalize fret mod 12 = fret mod 12.
Proof.
  funelim (normalize fret); [|reflexivity].
  match goal with
  | IH : _ mod 12 = (?f - 12) mod 12 |- _ =>
      rewrite IH; replace (f - 12) with (f + (-1) * 12) by lia
  end.
  apply Z_mod_plus_full.
Qed.

Lemma normalize_small (fret : Z) : fret <= 19 -> normalize fret = fret.
Proof. intros H. rewrite normalize_loop. destruct (Z.gtb_spec fret 19); [lia|reflexivity]. Qed.

(** The fret of a melodic note: the note at index [k] comes from the
    interval the scale has at position [digit mod len(scale)]; its fret
    is root + interval when that is at most 19, and otherwise the fret
    between 8 and 19 that differs from root + interval by a multiple of
    12 (whole octaves). *)
Theorem melodic_fret_pitch (rn : pystr) (rf : Z) (m : ScaleMode)
    (barcode : pystr) (out out' : stdout) (notes : list GuitarNote)
    (k : nat) (note : GuitarNote) :
  barcode_to_notes (init rn rf m) barcode out = (Ok notes, out') ->
  notes !! k = Some note ->
  exists digit interval : Z,
    decimal_digits barcode !! k = Some digit /\
    SCALES m !! Z.to_nat (digit mod len (SCALES m)) = Some interval /\
    fret note mod 12 = (rf + interval) mod 12 /\
    (rf + interval <= 19 -> fret note = rf + interval) /\
    (19 < rf + interval -> 8 <= fret note <= 19).
Proof.
  intros Hrun Hk. apply barcode_to_notes_Ok in Hrun as [_ ->].
  rewrite list_lookup_imap in Hk.
  destruct (decimal_digits barcode !! k) as [d|]; inversion Hk.
  pose proof (SCALES_length m) as Hlen.
  pose proof (Z.mod_pos_bound d (len (SCALES m)) Hlen) as Hdeg.
  destruct (getitem_in_range (SCALES m) _ Hdeg) as (x & Hx & _).
  exists d, x. split; [reflexivity|]. split; [exact Hx|].
  cbn [fret melodic_note root_fret init]. unfold interval_of.
  cbn [scale init]. rewrite (nth_lookup_Some _ _ 0 _ Hx).
  split; [apply normalize_mod_12|]. split.
  - apply normalize_small.
  - intros Hhigh. split; [apply normalize_ge; lia | apply normalize_le].
Qed.

Lemma melodic_fret_pitch_witness :
  exists digit interval : Z,
    decimal_digits (lit "9") !! 0%nat = Some digit /\
    SCALES CHROMATIC !! Z.to_nat (digit mod len (SCALES CHROMATIC))
      = Some interval /\
    fret (mkNote 0 9 1) mod 12 = (12 + interval) mod 12.
Proof.
  destruct (melodic_fret_pitch (lit "E") 12 CHROMATIC (lit "9") [] []
              [mkNote 0 9 1] 0 (mkNote 0 9 1) eq_refl eq_refl)
    as (digit & interval & Hd & Hi & Hmod & _).
  exists digit, interval. auto.
Defined.

(** ** What the tab shows *)

Lemma written_before (notes : list GuitarNote) :
  Forall (fun note => 0 <= string_ note <= 5 /\ 0 <= duration note) notes ->
  forall (cursor : Z) (r c : nat),
    Z.of_nat c < cursor -> written notes cursor r c = None.
Proof.
  induction 1 as [|note rest [_ Hd] _ IH]; intros cursor r c Hc;
    [reflexivity|].
  cbn [written]. rewrite IH by lia. unfold text_cell.
  destruct (Z.leb_spec cursor (Z.of_nat c)); [lia|].
  rewrite andb_false_r. reflexivity.
Qed.

Lemma written_other_row (notes : list GuitarNote) (r : nat) :
  Forall (fun note => 5 - string_ note <> Z.of_nat r) notes ->
  forall (cursor : Z) (c : nat), written notes cursor r c = None.
Proof.
  induction 1 as [|note rest Hrow _ IH]; intros cursor c; [reflexivity|].
  cbn [written]. rewrite IH. unfold text_cell.
  destruct (Z.eqb_spec (Z.of_nat r) (5 - string_ note)); [congruence|].
  reflexivity.
Qed.

Lemma written_at (notes : list GuitarNote) :
  Forall (fun note => 0 <= string_ note <= 5 /\ 0 <= duration note) notes ->
  forall (k : nat) (note : GuitarNote) (cursor : Z) (r c j : nat) (ch : char),
    notes !! k = Some note ->
    Z.of_nat r = 5 - string_ note ->
    Z.of_nat c =
      cursor + sum (List.map (fun n => duration n * 2) (take k notes))
      + Z.of_nat j ->
    Z.of_nat j < duration note * 2 ->
    decimal_text (fret note) !! j = Some ch ->
    written notes cursor r c = Some ch.
Proof.
  induction 1 as [|first rest [Hs Hd] Hrest IH];
    intros k note cursor r c j ch Hk Hr Hc Hj Hch; [discriminate|].
  destruct k as [|k]; cbn [written].
  - injection Hk as ->. cbn [take List.map] in Hc.
    change (sum []) with 0 in Hc.
    rewrite (written_before rest Hrest) by lia.
    unfold text_cell.
    destruct (Z.eqb_spec (Z.of_nat r) (5 - string_ note)); [|contradiction].
    destruct (Z.leb_spec cursor (Z.of_nat c)); [|lia].
    cbn [andb]. replace (Z.to_nat (Z.of_nat c - cursor)) with j by lia.
    exact Hch.
  - cbn [take List.map] in Hc. rewrite sum_cons in Hc.
    rewrite (IH k note (cursor + duration first * 2) r c j ch);
      [reflexivity | exact Hk | exact Hr | lia | exact Hj | exact Hch].
Qed.

Lemma cursor_within (notes : list GuitarNote) (k : nat) (note : GuitarNote) :
  Forall (fun note => 0 <= string_ note <= 5 /\ 0 <= duration note) notes ->
  notes !! k = Some note ->
  1 <= cursor_at notes k /\
  cursor_at notes k + duration note * 2 < total_length notes.
Proof.
  intros Hvalid Hk. unfold cursor_at, total_length.
  rewrite <- (take_drop_middle notes k note Hk) in Hvalid.
  apply Forall_app in Hvalid as [Hbefore Hafter].
  apply Forall_cons in Hafter as [_ Hafter].
  pose proof (sum_durations_nonneg _ Hbefore).
  pose proof (sum_durations_nonneg _ Hafter).
  rewrite <- (take_drop_middle notes k note Hk) at 3.
  rewrite List.map_app, sum_app. cbn [List.map]. rewrite sum_cons. lia.
Qed.

Lemma cell_of_note (notes : list GuitarNote) (k : nat)
    (note : GuitarNote) (j : nat) (ch : char) :
  Forall (fun note => 0 <= string_ note <= 5 /\ 0 <= duration note) notes ->
  Forall (fun note => printable (fret note)) notes ->
  notes !! k = Some note ->
  decimal_text (fret note) !! j = Some ch ->
  Z.of_nat j < duration note * 2 ->
  exists grid : list pystr,
    tab_grid notes = Ok grid /\
    cell grid (Z.to_nat (5 - string_ note))
      (Z.to_nat (cursor_at notes k) + j) = Some ch.
Proof.
  intros Hvalid Hprint Hk Hch Hj.
  destruct (tab_grid_spec notes Hvalid Hprint) as (grid & Hrun & _ & Hcell).
  exists grid. split; [exact Hrun|].
  destruct (cursor_within notes k note Hvalid Hk) as [Hlo Hhi].
  assert (Hs : 0 <= string_ note <= 5).
  { rewrite Forall_lookup in Hvalid. exact (proj1 (Hvalid _ _ Hk)). }
  rewrite Hcell by lia.
  rewrite (written_at notes Hvalid k note 1 _ _ j ch Hk); try assumption.
  - reflexivity.
  - lia.
  - unfold cursor_at in *. lia.
Qed.

(** Every note is readable in the tab: for notes on strings 0 to 5 with
    durations that are not negative and frets of at most 4300 digits,
    the renderer returns a grid in which the characters of a note's fret
    that fall within the 2 * duration cells of the note stand on row
    5 - string, from the column of the cursor on; no later note
    overwrites them and none is cut off. *)
Theorem note_displayed (notes : list GuitarNote) (k : nat)
    (note : GuitarNote) (text : pystr) (j : nat) (ch : char) :
  Forall (fun note => 0 <= string_ note <= 5 /\ 0 <= duration note) notes ->
  Forall (fun note => printable (fret note)) notes ->
  notes !! k = Some note ->
  str (fret note) = Ok text ->
  text !! j = Some ch ->
  Z.of_nat j < duration note * 2 ->
  exists grid : list pystr,
    tab_grid notes = Ok grid /\
    cell grid (Z.to_nat (5 - string_ note))
      (Z.to_nat (cursor_at notes k) + j) = Some ch.
Proof.
  intros Hvalid Hprint Hk Htext Hch Hj.
  rewrite str_printable in Htext
    by (rewrite Forall_lookup in Hprint; exact (Hprint _ _ Hk)).
  injection Htext as <-. apply cell_of_note; assumption.
Qed.

Lemma note_displayed_witness :
  exists grid : list pystr,
    tab_grid [mkNote 0 5 2; mkNote 1 17 1] = Ok grid /\
    cell grid 4 6 = Some (N_of_ascii "7").
Proof.
  refine (note_displayed [mkNote 0 5 2; mkNote 1 17 1] 1 (mkNote 1 17 1)
            (lit "17") 1 (N_of_ascii "7") _ _ eq_refl eq_refl eq_refl _).
  - repeat constructor; cbn; lia.
  - repeat constructor; vm_compute; discriminate.
  - cbn. lia.
Defined.

(** The cells no note reaches: in the grid of notes on strings 0 to 5 with
    durations that are not negative and frets of at most 4300 digits,
    column 0 holds a dash on every line, and a line no note is on holds
    dashes only. *)
Theorem blank_cells (notes : list GuitarNote) :
  Forall (fun note => 0 <= string_ note <= 5 /\ 0 <= duration note) notes ->
  Forall (fun note => printable (fret note)) notes ->
  exists grid : list pystr,
    tab_grid notes = Ok grid /\
    (forall r : nat, (r < 6)%nat -> cell grid r 0 = Some dash) /\
    (forall r c : nat,
       (r < 6)%nat -> Z.of_nat c < total_length notes ->
       Forall (fun note => 5 - string_ note <> Z.of_nat r) notes ->
       cell grid r c = Some dash).
Proof.
  intros Hvalid Hprint.
  destruct (tab_grid_spec notes Hvalid Hprint) as (grid & Hrun & _ & Hcell).
  pose proof (sum_durations_nonneg notes Hvalid) as Hsum.
  exists grid. split; [exact Hrun|]. split.
  - intros r Hr. rewrite Hcell by (unfold total_length; lia).
    rewrite (written_before notes Hvalid) by lia. reflexivity.
  - intros r c Hr Hc Hrow. rewrite Hcell by lia.
    rewrite (written_other_row notes r Hrow). reflexivity.
Qed.

Lemma blank_cells_witness :
  exists grid : list pystr,
    tab_grid [mkNote 0 5 2; mkNote 1 17 1] = Ok grid /\
    cell grid 4 0 = Some dash /\ cell grid 2 5 = Some dash.
Proof.
  destruct (blank_cells [mkNote 0 5 2; mkNote 1 17 1])
    as (grid & Hrun & Hborder & Hrow).
  - repeat constructor; cbn; lia.
  - repeat constructor; vm_compute; discriminate.
  - exists grid. split; [exact Hrun|]. split.
    + apply Hborder. lia.
    + apply Hrow; [lia | vm_compute; reflexivity | repeat constructor; cbn; lia].
Defined.

(** Nothing is lost of what the generators produce: with a root fret that
    is not negative, every character of the fret of every note of a
    melody stands in the grid, on row 5 - string from the column of the
    note's cursor on; so does every character of every note of a
    power-chord riff.  No fret is cut off or overwritten by the next
    note. *)
Theorem generated_notes_displayed (rn : pystr) (rf : Z) (m : ScaleMode)
    (barcode : pystr) :
  0 <= rf ->
  (forall (out out' : stdout) (notes : list GuitarNote) (k : nat)
          (note : GuitarNote),
     barcode_to_notes (init rn rf m) barcode out = (Ok notes, out') ->
     notes !! k = Some note ->
     exists (text : pystr) (grid : list pystr),
       str (fret note) = Ok text /\
       tab_grid notes = Ok grid /\
       forall (j : nat) (ch : char),
         text !! j = Some ch ->
         cell grid (Z.to_nat (5 - string_ note))
           (Z.to_nat (cursor_at notes k) + j) = Some ch) /\
  (forall (notes : list GuitarNote) (k : nat) (note : GuitarNote),
     generate_power_chord_riff (init rn rf m) barcode = Ok notes ->
     notes !! k = Some note ->
     exists (text : pystr) (grid : list pystr),
       str (fret note) = Ok text /\
       tab_grid notes = Ok grid /\
       forall (j : nat) (ch : char),
         text !! j = Some ch ->
         cell grid (Z.to_nat (5 - string_ note))
           (Z.to_nat (cursor_at notes k) + j) = Some ch).
Proof.
  intros Hrf.
  assert (Hshort : forall (notes : list GuitarNote) (k : nat)
                          (note : GuitarNote),
             Forall (fun note => 0 <= string_ note <= 5 /\
                                 0 <= duration note) notes ->
             Forall (fun note => printable (fret note)) notes ->
             notes !! k = Some note ->
             1 <= duration note -> 0 <= fret note <= 99 ->
             exists (text : pystr) (grid : list pystr),
               str (fret note) = Ok text /\
               tab_grid notes = Ok grid /\
               forall (j : nat) (ch : char),
                 text !! j = Some ch ->
                 cell grid (Z.to_nat (5 - string_ note))
                   (Z.to_nat (cursor_at notes k) + j) = Some ch).
  { intros notes k note Hvalid Hprint Hk Hd Hf.
    destruct (tab_grid_spec notes Hvalid Hprint) as (grid & Hrun & _).
    exists (decimal_text (fret note)), grid.
    split; [apply str_printable, printable_small, Hf|].
    split; [exact Hrun|]. intros j ch Hch.
    destruct (cell_of_note notes k note j ch Hvalid Hprint Hk Hch)
      as (grid' & Hrun' & Hcell).
    { pose proof (decimal_text_short (fret note) Hf).
      apply lookup_lt_Some in Hch. lia. }
    rewrite Hrun in Hrun'. injection Hrun' as <-. exact Hcell. }
  split.
  - intros out out' notes k note Hrun Hk.
    apply barcode_to_notes_Ok in Hrun as [_ ->].
    apply Hshort; try assumption;
      [apply melodic_notes_valid | apply melodic_notes_printable, Hrf | |].
    + rewrite list_lookup_imap in Hk.
      destruct (decimal_digits barcode !! k) as [d|]; inversion Hk.
      cbn [duration melodic_note]. destruct ((d =? 0) || (d =? 5)); lia.
    + rewrite list_lookup_imap in Hk.
      destruct (decimal_digits barcode !! k) as [d|]; inversion Hk.
      pose proof (melodic_note_fret_le (init rn rf m) k d).
      pose proof (melodic_note_fret_ge rn rf m k d 0). lia.
  - intros notes k note Hrun Hk.
    apply generate_power_chord_riff_Ok in Hrun as ->.
    assert (Hall : Forall (fun note => 1 <= duration note /\
                                       0 <= fret note <= 99)
                     (List.concat (List.map chord_of (decimal_digits barcode)))).
    { clear Hk. induction (decimal_digits barcode) as [|d ds IH];
        [constructor|].
      cbn [List.map List.concat]. apply Forall_app. split; [|exact IH].
      pose proof (Z.mod_pos_bound d 13).
      unfold chord_of. destruct ((d =? 0) || (d =? 5));
        repeat constructor; cbn; lia. }
    rewrite Forall_lookup in Hall. destruct (Hall _ _ Hk) as [Hd Hf].
    apply Hshort; try assumption;
      [apply chords_valid | apply chords_printable].
Qed.

Lemma generated_notes_displayed_witness :
  exists grid : list pystr,
    tab_grid [mkNote 0 17 1; mkNote 0 7 2] = Ok grid /\
    cell grid 5 2 = Some (N_of_ascii "7").
Proof.
  assert (Hrf : 0 <= 7) by lia.
  destruct (proj1 (generated_notes_displayed (lit "E") 7 MINOR_PENTATONIC
                     (lit "45") Hrf)
              [] [] [mkNote 0 17 1; mkNote 0 7 2] 0%nat (mkNote 0 17 1)
              eq_refl eq_refl)
    as (text & grid & Htext & Hrun & Hcell).
  exists grid. split; [exact Hrun|].
  apply (Hcell 1%nat). injection Htext as <-. reflexivity.
Defined.

(** In the tab of a power-chord riff the four upper lines (e, B, G and D)
    hold dashes only. *)
Theorem power_chord_upper_lines_blank (self : BarcodeToTab)
    (barcode : pystr) (notes : list GuitarNote) :
  generate_power_chord_riff self barcode = Ok notes ->
  exists grid : list pystr,
    tab_grid notes = Ok grid /\
    forall r c : nat,
      (r < 4)%nat -> Z.of_nat c < total_length notes ->
      cell grid r c = Some dash.
Proof.
  intros Hrun. apply generate_power_chord_riff_Ok in Hrun as ->.
  destruct (tab_grid_spec _ (chords_valid (decimal_digits barcode))
              (chords_printable (decimal_digits barcode)))
    as (grid & Hgrid & _ & Hcell).
  exists grid. split; [exact Hgrid|]. intros r c Hr Hc.
  rewrite Hcell by lia. rewrite written_other_row; [reflexivity|].
  clear Hgrid Hcell Hc.
  induction (decimal_digits barcode) as [|d ds IH]; [constructor|].
  cbn [List.map List.concat]. apply Forall_app. split; [|exact IH].
  unfold chord_of. destruct ((d =? 0) || (d =? 5));
    repeat constructor; cbn; lia.
Qed.

Lemma power_chord_upper_lines_blank_witness :
  exists grid : list pystr,
    tab_grid [mkNote 0 5 2; mkNote 1 7 2; mkNote 0 5 1; mkNote 1 7 1]
      = Ok grid /\
    forall r c : nat,
      (r < 4)%nat -> (c < 14)%nat -> cell grid r c = Some dash.
Proof.
  destruct (power_chord_upper_lines_blank default_converter (lit "5") _
              eq_refl) as (grid & Hrun & Hblank).
  exists grid. split; [exact Hrun|].
  intros r c Hr Hc. apply Hblank; [exact Hr|].
  change (total_length _) with 14. lia.
Defined.

(** ** When the renderer fails *)

Lemma str_Ok (n : Z) (text : pystr) :
  str n = Ok text -> text = decimal_text n /\ printable n.
Proof.
  unfold printable, str.
  destruct (Z.leb_spec (num_digits n) int_max_str_digits); [|discriminate].
  intros [= <-]. split; [reflexivity | lia].
Qed.

Lemma decimal_text_nonempty (n : Z) : decimal_text n <> [].
Proof.
  unfold decimal_text, lit.
  destruct n as [|p|p]; cbn [Z.to_int NilZero.string_of_int];
    [discriminate | |].
  - unfold NilZero.string_of_uint.
    destruct (Pos.to_uint p); discriminate.
  - discriminate.
Qed.

Lemma py_index_wrap {A : Type} (l : list A) (i : Z) :
  len l = 6 ->
  py_index l i =
    if (-6 <=? i) && (i <=? 5) then Some (row_of i) else None.
Proof.
  intros Hlen. unfold py_index, row_of. rewrite Hlen.
  destruct (Z.ltb_spec i 0);
    destruct (Z.leb_spec (-6) i); destruct (Z.leb_spec i 5);
    cbn [andb]; try lia;
    repeat match goal with
           | |- context [?a <=? ?b] => destruct (Z.leb_spec a b); try lia
           | |- context [?a <? ?b] => destruct (Z.ltb_spec a b); try lia
           end; reflexivity.
Qed.

Lemma place_chars_returns (width : nat) (string_idx position : Z)
    (fret_str : pystr) :
  -6 <= string_idx <= 5 ->
  forall (char_idx : Z) (grid : list pystr),
    0 <= position + char_idx ->
    grid_ok width grid ->
    exists grid',
      place_chars (Z.of_nat width) string_idx position char_idx fret_str grid
        = Ok grid' /\
      grid_ok width grid'.
Proof.
  intros Hidx. induction fret_str as [|ch rest IH]; intros ci grid Hpos Hok.
  - exists grid. split; [reflexivity | exact Hok].
  - cbn [place_chars].
    destruct (Z.ltb_spec (position + ci) (Z.of_nat width)) as [Hin|Hout];
      [|cbn [rbind]; apply IH; [lia | exact Hok]].
    destruct Hok as [Hlen Hall].
    assert (Hlen' : len grid = 6) by (unfold len; lia).
    assert (Hrow_lt : (row_of string_idx < length grid)%nat).
    { unfold row_of. destruct (Z.ltb_spec string_idx 0); lia. }
    destruct (lookup_lt_is_Some_2 grid _ Hrow_lt) as [row Hrow].
    unfold getitem, setitem. rewrite (py_index_wrap grid _ Hlen').
    destruct (Z.leb_spec (-6) string_idx); [|lia].
    destruct (Z.leb_spec string_idx 5); [|lia].
    cbn [andb]. rewrite Hrow. cbn [rbind].
    assert (Hwidth : length row = width).
    { rewrite Forall_lookup in Hall. exact (Hall _ _ Hrow). }
    rewrite (py_index_in_range row) by (unfold len; lia).
    cbn [rbind]. apply IH; [lia|].
    split; [rewrite length_insert; exact Hlen|].
    apply Forall_insert; [exact Hall|].
    cbn beta. rewrite length_insert. exact Hwidth.
Qed.

Lemma place_chars_raises (width : nat) (string_idx position : Z)
    (fret_str : pystr) (grid : list pystr) :
  string_idx < -6 \/ 5 < string_idx ->
  fret_str <> [] ->
  position < Z.of_nat width ->
  grid_ok width grid ->
  place_chars (Z.of_nat width) string_idx position 0 fret_str grid
    = Raise IndexError.
Proof.
  intros Hidx Hne Hpos [Hlen _].
  destruct fret_str as [|ch rest]; [contradiction|].
  cbn [place_chars]. rewrite Z.add_0_r.
  destruct (Z.ltb_spec position (Z.of_nat width)); [|lia].
  unfold getitem. rewrite (py_index_wrap grid) by (unfold len; lia).
  destruct (Z.leb_spec (-6) string_idx); destruct (Z.leb_spec string_idx 5);
    cbn [andb rbind]; try lia; reflexivity.
Qed.

Lemma place_notes_outcome (width : nat) (notes : list GuitarNote) :
  Forall (fun note => 0 <= duration note) notes ->
  forall (position : Z) (grid : list pystr),
    0 <= position ->
    position + sum (List.map (fun note => duration note * 2) notes)
      < Z.of_nat width ->
    grid_ok width grid ->
    match place_notes (Z.of_nat width) notes position grid with
    | Ok grid' =>
        Forall (fun note => 0 <= string_ note <= 11 /\ printable (fret note))
          notes /\
        grid_ok width grid'
    | Raise IndexError =>
        Exists (fun note => string_ note < 0 \/ 11 < string_ note) notes
    | Raise ValueError =>
        Exists (fun note => ~ printable (fret note)) notes
    | Raise _ => False
    end.
Proof.
  induction 1 as [|note rest Hd Hrest IH]; intros position grid Hpos Hfit Hok.
  - cbn. auto.
  - cbn [place_notes]. cbn [List.map] in Hfit. rewrite sum_cons in Hfit.
    assert (Hsum : 0 <= sum (List.map (fun n => duration n * 2) rest)).
    { clear -Hrest. induction Hrest as [|n l Hn _ IHl]; [cbn; lia|].
      cbn [List.map]. rewrite sum_cons. lia. }
    destruct (str (fret note)) as [text|e] eqn:Htext; cbn [rbind].
    2:{ apply str_Raise in Htext as [-> Hbad]. apply Exists_cons_hd, Hbad. }
    apply str_Ok in Htext as [-> Hfret].
    destruct (Z_le_dec 0 (string_ note)) as [Hlo|Hlo];
      [destruct (Z_le_dec (string_ note) 11) as [Hhi|Hhi]|].
    + destruct (place_chars_returns width (5 - string_ note) position
                  (decimal_text (fret note)) ltac:(lia) 0 grid)
        as (grid1 & -> & Hok1); [lia | exact Hok |].
      cbn [rbind].
      specialize (IH (position + duration note * 2) grid1
                    ltac:(lia) ltac:(lia) Hok1).
      destruct (place_notes (Z.of_nat width) rest
                  (position + duration note * 2) grid1) as [grid'|[]].
      * destruct IH as [Hall Hok']. split; [|exact Hok'].
        constructor; [split; [lia | exact Hfret] | exact Hall].
      * apply Exists_cons_tl, IH.
      * apply Exists_cons_tl, IH.
      * exact IH.
      * exact IH.
      * exact IH.
    + rewrite place_chars_raises;
        [| lia | apply decimal_text_nonempty | lia | exact Hok].
      cbn [rbind]. apply Exists_cons_hd. lia.
    + rewrite place_chars_raises;
        [| lia | apply decimal_text_nonempty | lia | exact Hok].
      cbn [rbind]. apply Exists_cons_hd. lia.
Qed.

(** The bounds of the renderer: for notes whose durations are not
    negative, [notes_to_tab] returns exactly when every string index lies
    between 0 and 11 and every fret has at most 4300 digits; it raises
    [IndexError] only when some string index is outside 0 to 11,
    [ValueError] only when some fret has more than 4300 digits, and no
    other exception.  String indices 6 to 11 are accepted because the row
    5 - string is then a negative Python index, which counts from the
    last line. *)
Theorem notes_to_tab_outcome (self : BarcodeToTab)
    (notes : list GuitarNote) (title : pystr) :
  Forall (fun note => 0 <= duration note) notes ->
  match notes_to_tab self notes title with
  | Ok _ =>
      Forall (fun note => 0 <= string_ note <= 11 /\ printable (fret note))
        notes
  | Raise IndexError =>
      Exists (fun note => string_ note < 0 \/ 11 < string_ note) notes
  | Raise ValueError => Exists (fun note => ~ printable (fret note)) notes
  | Raise _ => False
  end.
Proof.
  intros Hd. unfold notes_to_tab.
  destruct notes as [|note rest] eqn:Hnotes; [constructor|].
  rewrite <- Hnotes in *. clear Hnotes. unfold tab_grid.
  assert (Hsum : 0 <= sum (List.map (fun n => duration n * 2) notes)).
  { clear -Hd. induction Hd as [|n l Hn _ IHl]; [cbn; lia|].
    cbn [List.map]. rewrite sum_cons. lia. }
  assert (Htotal : total_length notes = Z.of_nat (Z.to_nat (total_length notes))).
  { unfold total_length. lia. }
  pose proof (place_notes_outcome (Z.to_nat (total_length notes)) notes Hd 1
                (blank_lines (total_length notes))) as Hout.
  rewrite <- Htotal in Hout.
  specialize (Hout ltac:(lia) ltac:(unfold total_length; lia)
                (blank_lines_ok _)).
  destruct (place_notes (total_length notes) notes 1
              (blank_lines (total_length notes))) as [grid|[]]; cbn [rbind];
    try exact Hout.
  exact (proj1 Hout).
Qed.

Lemma notes_to_tab_outcome_witness :
  Forall (fun note => 0 <= string_ note <= 11 /\ printable (fret note))
    [mkNote 7 3 1; mkNote 0 5 1].
Proof.
  pose proof (notes_to_tab_outcome default_converter
                [mkNote 7 3 1; mkNote 0 5 1] []) as Hout.
  cbv beta in Hout.
  assert (Hd : Forall (fun note => 0 <= duration note)
                 [mkNote 7 3 1; mkNote 0 5 1])
    by (repeat constructor; cbn; lia).
  specialize (Hout Hd).
  destruct (notes_to_tab default_converter [mkNote 7 3 1; mkNote 0 5 1] [])
    as [text|e] eqn:Hrun; [exact Hout | discriminate Hrun].
Defined.

(** A note on string 7 is drawn on the line of string 1, a note on
    string -1 is an error. *)
Example tab_grid_wraps :
  tab_grid [mkNote 7 3 1] = tab_grid [mkNote 1 3 1] /\
  tab_grid [mkNote (-1) 3 1] = Raise IndexError.
Proof. split; reflexivity. Qed.

(** ** Reading digits back *)

(** Spelling digit values in ASCII and reading the string back gives the
    same values, in order: every sequence of digits from 0 to 9 is the
    digit sequence of a barcode, on which neither generator fails. *)
Theorem digits_of_ascii_digits (digits : list Z) :
  Forall (fun digit => 0 <= digit <= 9) digits ->
  digits_of (ascii_digits digits) = Ok digits.
Proof.
  intros Hrange. rewrite digits_of_spec.
  destruct (decimal_digits_ascii digits Hrange) as [-> ->]. reflexivity.
Qed.

Lemma digits_of_ascii_digits_witness :
  digits_of (ascii_digits [4; 0; 9]) = Ok [4; 0; 9].
Proof.
  apply digits_of_ascii_digits. repeat constructor; lia.
Defined.

(** ** The store: what a call leaves behind *)

Lemma getitem_fmap {A B : Type} (f : A -> B) (l : list A) (i : Z) :
  getitem (f <$> l) i =
    match getitem l i with
    | Ok x => Ok (f x)
    | Raise e => Raise e
    end.
Proof.
  unfold getitem, py_index, len. rewrite length_fmap.
  destruct ((0 <=? _) && (_ <? _)); [|reflexivity].
  rewrite list_lookup_fmap. destruct (l !! _); reflexivity.
Qed.

Lemma setitem_fmap {A B : Type} (f : A -> B) (l : list A) (i : Z) (x : A) :
  setitem (f <$> l) i (f x) =
    match setitem l i x with
    | Ok l' => Ok (f <$> l')
    | Raise e => Raise e
    end.
Proof.
  unfold setitem, py_index, len. rewrite length_fmap.
  destruct ((0 <=? _) && (_ <? _)); [|reflexivity].
  rewrite list_fmap_insert. reflexivity.
Qed.

Lemma items_of_old (old fresh : list (list pyval)) (self : instance)
    (o : stdout) (l : loc) (items : list pyval) :
  old !! l = Some items ->
  items_of l (mkWorld o (old ++ fresh) self) =
    (Ok items, mkWorld o (old ++ fresh) self).
Proof.
  intros Hl. unfold items_of. cbn [w_heap].
  rewrite (lookup_app_l_Some _ _ _ _ Hl). reflexivity.
Qed.

Lemma items_of_fresh (old fresh : list (list pyval)) (self : instance)
    (o : stdout) (k : nat) :
  items_of (length old + k)%nat (mkWorld o (old ++ fresh) self) =
    (Ok (default [] (fresh !! k)), mkWorld o (old ++ fresh) self).
Proof.
  unfold items_of. cbn [w_heap].
  rewrite lookup_app_r by lia.
  replace (length old + k - length old)%nat with k by lia. reflexivity.
Qed.

Lemma store_fresh (old fresh : list (list pyval)) (self : instance)
    (o : stdout) (k : nat) (items : list pyval) :
  store (length old + k)%nat items (mkWorld o (old ++ fresh) self) =
    (Ok tt, mkWorld o (old ++ <[k := items]> fresh) self).
Proof.
  unfold store. cbn [w_heap w_out w_self].
  rewrite insert_app_r. reflexivity.
Qed.

Lemma new_list_fresh (old fresh : list (list pyval)) (self : instance)
    (o : stdout) (items : list pyval) :
  new_list items (mkWorld o (old ++ fresh) self) =
    (Ok (length old + length fresh)%nat,
     mkWorld o (old ++ (fresh ++ [items])) self).
Proof.
  unfold new_list. cbn [w_heap w_out w_self].
  rewrite length_app, <- app_assoc. reflexivity.
Qed.

Lemma list_append_fresh (old fresh : list (list pyval)) (self : instance)
    (o : stdout) (k : nat) (items : list pyval) (v : pyval) :
  fresh !! k = Some items ->
  list_append (length old + k)%nat v (mkWorld o (old ++ fresh) self) =
    (Ok tt, mkWorld o (old ++ <[k := items ++ [v]]> fresh) self).
Proof.
  intros Hk. unfold list_append, st_bind.
  rewrite items_of_fresh, Hk. apply store_fresh.
Qed.

Lemma melodic_loop_st_sim (old : list (list pyval)) (self : instance)
    (o : stdout) (sc : list Z) (k : nat) (digits : list Z) :
  old !! a_scale self = Some (VInt <$> sc) ->
  forall (i current_string : Z) (acc : list GuitarNote)
         (fresh : list (list pyval)),
    fresh !! k = Some (VNote <$> acc) ->
    exists acc' : list GuitarNote,
      melodic_loop_st i digits current_string (length old + k)%nat
        (mkWorld o (old ++ fresh) self) =
        (match melodic_loop (pure_self self sc) i digits current_string
                 acc with
         | Ok _ => Ok tt
         | Raise e => Raise e
         end,
         mkWorld o (old ++ <[k := VNote <$> acc']> fresh) self) /\
      forall notes : list GuitarNote,
        melodic_loop (pure_self self sc) i digits current_string acc
          = Ok notes ->
        acc' = notes.
Proof.
  intros Hscale. induction digits as [|digit rest IH];
    intros i cs acc fresh Hk.
  - exists acc. cbn [melodic_loop_st melodic_loop st_ret].
    rewrite list_insert_id by exact Hk.
    split; [reflexivity|]. intros notes [= <-]. reflexivity.
  - cbn [melodic_loop_st melodic_loop]. unfold st_bind at 1.
    cbn [get_self w_self]. unfold st_bind at 1.
    rewrite (items_of_old _ _ _ _ _ _ Hscale).
    unfold st_bind at 1, st_lift at 1, melodic_step.
    cbn [scale root_fret pure_self].
    replace (len (VInt <$> sc)) with (len sc)
      by (unfold len; rewrite length_fmap; reflexivity).
    destruct (py_mod digit (len sc)) as [sd|e]; cbn [rbind].
    2:{ exists acc. rewrite list_insert_id by exact Hk.
        split; [reflexivity | discriminate]. }
    unfold st_bind at 1, list_getitem, st_bind at 1.
    rewrite (items_of_old _ _ _ _ _ _ Hscale). unfold st_lift at 1.
    rewrite getitem_fmap.
    destruct (getitem sc sd) as [interval|e]; cbn [rbind].
    2:{ exists acc. rewrite list_insert_id by exact Hk.
        split; [reflexivity | discriminate]. }
    unfold st_bind at 1, st_lift at 1. cbn [as_int].
    unfold st_bind at 1.
    rewrite (list_append_fresh _ _ _ _ _ _ _ Hk).
    rewrite <- fmap_snoc. cbn [fst snd].
    destruct (IH (i + 1)
                (if (i >? 0) && (i mod 4 =? 0) then (cs + 1) mod 6 else cs)
                (acc ++
                 [mkNote
                    (if (i >? 0) && (i mod 4 =? 0) then (cs + 1) mod 6 else cs)
                    (normalize (a_root_fret self + interval))
                    (if (digit =? 0) || (digit =? 5) then 2 else 1)])
                (<[k := VNote <$>
                         acc ++
                         [mkNote
                            (if (i >? 0) && (i mod 4 =? 0)
                             then (cs + 1) mod 6 else cs)
                            (normalize (a_root_fret self + interval))
                            (if (digit =? 0) || (digit =? 5) then 2 else 1)]]>
                   fresh))
      as (acc' & Hrun & Hres).
    { apply list_lookup_insert_eq. eapply lookup_lt_Some, Hk. }
    exists acc'. rewrite Hrun, list_insert_insert_eq.
    split; [reflexivity | exact Hres].
Qed.

Lemma power_loop_st_sim (old : list (list pyval)) (self : instance)
    (o : stdout) (k : nat) (digits : list Z) :
  forall (acc : list GuitarNote) (fresh : list (list pyval)),
    fresh !! k = Some (VNote <$> acc) ->
    power_loop_st digits (length old + k)%nat
      (mkWorld o (old ++ fresh) self) =
      (Ok tt,
       mkWorld o
         (old ++
          <[k := VNote <$> acc ++ List.concat (List.map chord_of digits)]>
            fresh)
         self).
Proof.
  induction digits as [|digit rest IH]; intros acc fresh Hk.
  - cbn [power_loop_st st_ret List.map List.concat].
    rewrite app_nil_r, list_insert_id by exact Hk. reflexivity.
  - assert (Hlt : (k < length fresh)%nat) by (eapply lookup_lt_Some, Hk).
    cbn [power_loop_st List.map List.concat].
    unfold st_bind at 1, st_lift at 1. cbn [py_mod Z.eqb].
    unfold st_bind at 1. rewrite (list_append_fresh _ _ _ _ _ _ _ Hk).
    unfold st_bind at 1.
    rewrite (list_append_fresh _ _ _ _ _ _ _
               (list_lookup_insert_eq _ _ _ Hlt)).
    rewrite list_insert_insert_eq. unfold st_bind at 1.
    unfold chord_of at 1.
    destruct ((digit =? 0) || (digit =? 5)).
    + unfold st_bind at 1.
      rewrite (list_append_fresh _ _ _ _ _ _ _
                 (list_lookup_insert_eq _ _ _ Hlt)).
      rewrite list_insert_insert_eq.
      rewrite (list_append_fresh _ _ _ _ _ _ _
                 (list_lookup_insert_eq _ _ _ Hlt)).
      rewrite list_insert_insert_eq.
      rewrite <- !fmap_snoc.
      rewrite (IH _ _ (list_lookup_insert_eq _ _ _ Hlt)).
      rewrite list_insert_insert_eq.
      cbn [app]. rewrite <- !app_assoc. reflexivity.
    + cbn [st_ret]. rewrite <- !fmap_snoc.
      rewrite (IH _ _ (list_lookup_insert_eq _ _ _ Hlt)).
      rewrite list_insert_insert_eq.
      cbn [app]. rewrite <- !app_assoc. reflexivity.
Qed.

Lemma insert_last {A : Type} (l : list A) (x y : A) :
  <[length l := y]> (l ++ [x]) = l ++ [y].
Proof.
  rewrite insert_app_r_alt by lia.
  replace (length l - length l)%nat with 0%nat by lia. reflexivity.
Qed.

Lemma lookup_last {A : Type} (l : list A) (x : A) :
  (l ++ [x]) !! length l = Some x.
Proof. apply list_lookup_middle. reflexivity. Qed.

(** [barcode_to_notes] over the store: it makes one list object, fills
    it with the notes of the first embedding, prints what it prints, and
    touches nothing else. *)
Lemma barcode_to_notes_st_sim (old fresh : list (list pyval))
    (self : instance) (o : stdout) (sc : list Z) (barcode : pystr) :
  old !! a_scale self = Some (VInt <$> sc) ->
  exists items : list GuitarNote,
    barcode_to_notes_st barcode (mkWorld o (old ++ fresh) self) =
      (match fst (barcode_to_notes (pure_self self sc) barcode o) with
       | Ok _ => Ok (length old + length fresh)%nat
       | Raise e => Raise e
       end,
       mkWorld (snd (barcode_to_notes (pure_self self sc) barcode o))
         (old ++ (fresh ++ [VNote <$> items])) self) /\
    forall notes : list GuitarNote,
      fst (barcode_to_notes (pure_self self sc) barcode o) = Ok notes ->
      items = notes.
Proof.
  intros Hscale.
  unfold barcode_to_notes_st, barcode_to_notes, io_bind, io_lift, st_bind.
  rewrite new_list_fresh. unfold st_lift at 1.
  destruct (digits_of barcode) as [[|d ds]|e].
  - exists []. cbn. split; [reflexivity|]. intros notes [= <-]. reflexivity.
  - destruct (melodic_loop_st_sim old self o sc (length fresh) (d :: ds)
                Hscale 0 0 [] (fresh ++ [[]]) (lookup_last fresh []))
      as (acc' & Hrun & Hres).
    exists acc'. rewrite Hrun, insert_last. cbn [fst snd].
    destruct (melodic_loop (pure_self self sc) 0 (d :: ds) 0 []) as [res|e];
      (split; [reflexivity|]); [|discriminate].
    intros notes [= <-]. apply Hres. reflexivity.
  - exists []. cbn. split; [reflexivity | discriminate].
Qed.

Lemma generate_power_chord_riff_st_sim (old fresh : list (list pyval))
    (self : instance) (o : stdout) (pure : BarcodeToTab) (barcode : pystr) :
  exists items : list GuitarNote,
    generate_power_chord_riff_st barcode (mkWorld o (old ++ fresh) self) =
      (match generate_power_chord_riff pure barcode with
       | Ok _ => Ok (length old + length fresh)%nat
       | Raise e => Raise e
       end,
       mkWorld o (old ++ (fresh ++ [VNote <$> items])) self) /\
    forall notes : list GuitarNote,
      generate_power_chord_riff pure barcode = Ok notes -> items = notes.
Proof.
  unfold generate_power_chord_riff_st, generate_power_chord_riff, st_bind.
  rewrite new_list_fresh. unfold st_lift at 1.
  destruct (digits_of barcode) as [[|d ds]|e]; cbn [rbind].
  - exists []. split; [reflexivity|]. intros notes [= <-]. reflexivity.
  - exists (List.concat (List.map chord_of (d :: ds))).
    rewrite (power_loop_st_sim old self o (length fresh) (d :: ds) []
               (fresh ++ [[]]) (lookup_last fresh [])).
    rewrite insert_last, power_loop_spec. cbn [app].
    split; [reflexivity|]. intros notes [= <-]. reflexivity.
  - exists []. split; [reflexivity | discriminate].
Qed.

Lemma new_lines_fresh (old : list (list pyval)) (self : instance)
    (o : stdout) (total : Z) (count : nat) :
  forall fresh : list (list pyval),
    new_lines count total (mkWorld o (old ++ fresh) self) =
      (Ok ((fun j => (length old + length fresh + j)%nat) <$> seq 0 count),
       mkWorld o
         (old ++
          (fresh ++ replicate count (enc_line (replicate (Z.to_nat total) dash))))
         self).
Proof.
  induction count as [|count IH]; intros fresh.
  - cbn. rewrite app_nil_r. reflexivity.
  - cbn [new_lines]. unfold st_bind at 1. rewrite new_list_fresh.
    unfold st_bind at 1. rewrite IH. cbn [st_ret replicate seq fmap list_fmap].
    rewrite <- fmap_S_seq, <- list_fmap_compose, <- app_assoc.
    unfold enc_line at 2. rewrite fmap_replicate.
    rewrite length_app. cbn [length app]. unfold st_ret.
    do 2 f_equal. f_equal; [lia|].
    apply list_fmap_ext. intros i j _. cbn. lia.
Qed.

Lemma py_index_same_length {A B : Type} (l : list A) (l' : list B) (i : Z) :
  length l = length l' -> py_index l i = py_index l' i.
Proof. intros Hlen. unfold py_index, len. rewrite Hlen. reflexivity. Qed.

Lemma py_index_lt {A : Type} (l : list A) (i : Z) (j : nat) :
  py_index l i = Some j -> (j < length l)%nat.
Proof.
  unfold py_index, len.
  destruct ((0 <=? _) && (_ <? _)) eqn:Hin; [|discriminate].
  apply andb_true_iff in Hin as [Hlo Hhi].
  apply Z.leb_le in Hlo. apply Z.ltb_lt in Hhi.
  intros [= <-]. lia.
Qed.

Lemma lookup_line_refs (first j : nat) :
  (j < 6)%nat -> line_refs first !! j = Some (VRef (first + j)%nat).
Proof.
  intros Hj. unfold line_refs. rewrite list_lookup_fmap.
  rewrite lookup_seq_lt by exact Hj. reflexivity.
Qed.

(** The inner loop over the store does to the six line objects what the
    first embedding does to its grid, and fails where it fails. *)
Lemma place_chars_st_sim (old : list (list pyval)) (self : instance)
    (o : stdout) (total string_idx position : Z) (fret_str : pystr) :
  forall (char_idx : Z) (grid : list pystr),
    length grid = 6%nat ->
    exists g : list pystr,
      length g = 6%nat /\
      place_chars_st total string_idx position char_idx fret_str
        (length old + 6)%nat
        (mkWorld o (old ++ (enc_grid grid ++ [line_refs (length old)])) self) =
        (match place_chars total string_idx position char_idx fret_str grid
         with
         | Ok _ => Ok tt
         | Raise e => Raise e
         end,
         mkWorld o (old ++ (enc_grid g ++ [line_refs (length old)])) self) /\
      match place_chars total string_idx position char_idx fret_str grid with
      | Ok g' => g = g'
      | Raise _ => True
      end.
Proof.
  induction fret_str as [|ch rest IH]; intros ci grid Hlen.
  - exists grid. cbn. auto.
  - cbn [place_chars_st place_chars]. unfold st_bind at 1.
    destruct (position + ci <? total).
    2:{ cbn [st_ret rbind]. apply IH, Hlen. }
    assert (Hrefs : (enc_grid grid ++ [line_refs (length old)]) !! 6%nat
                    = Some (line_refs (length old))).
    { replace 6%nat with (length (enc_grid grid))
        by (unfold enc_grid; rewrite length_fmap; exact Hlen).
      apply lookup_last. }
    unfold st_bind at 1, list_getitem, st_bind at 1.
    rewrite items_of_fresh, Hrefs. cbn [default from_option id]. unfold st_lift at 1.
    unfold getitem.
    rewrite (py_index_same_length (line_refs (length old)) grid)
      by (unfold line_refs; rewrite length_fmap, length_seq, Hlen;
          reflexivity).
    destruct (py_index grid string_idx) as [j|] eqn:Hj; cbn [rbind];
      [|exists grid; auto].
    pose proof (py_index_lt _ _ _ Hj) as Hlt.
    rewrite lookup_line_refs by lia.
    destruct (lookup_lt_is_Some_2 grid j Hlt) as [row Hrow].
    rewrite Hrow. cbn [rbind].
    unfold st_bind at 1, st_lift at 1. cbn [as_ref].
    assert (Hline : (enc_grid grid ++ [line_refs (length old)]) !! j
                    = Some (enc_line row)).
    { rewrite lookup_app_l
        by (unfold enc_grid; rewrite length_fmap; exact Hlt).
      unfold enc_grid. rewrite list_lookup_fmap, Hrow. reflexivity. }
    unfold list_setitem, st_bind at 1.
    rewrite items_of_fresh, Hline. cbn [default from_option id].
    unfold st_bind at 1, st_lift at 1.
    unfold enc_line at 1.
    rewrite (setitem_fmap (fun c => VStr [c]) row (position + ci) ch).
    destruct (setitem row (position + ci) ch) as [row'|e]; cbn [rbind];
      [|exists grid; auto].
    rewrite store_fresh.
    rewrite insert_app_l
      by (unfold enc_grid; rewrite length_fmap; exact Hlt).
    fold (enc_line row'). unfold enc_grid at 1.
    rewrite <- list_fmap_insert. fold (enc_grid (<[j := row']> grid)).
    unfold setitem. rewrite Hj. cbn [rbind].
    apply IH. rewrite length_insert. exact Hlen.
Qed.

(** The outer loop, likewise. *)
Lemma place_notes_st_sim (old : list (list pyval)) (self : instance)
    (o : stdout) (total : Z) (notes : list GuitarNote) :
  forall (position : Z) (grid : list pystr),
    length grid = 6%nat ->
    exists g : list pystr,
      length g = 6%nat /\
      place_notes_st total (VNote <$> notes) position (length old + 6)%nat
        (mkWorld o (old ++ (enc_grid grid ++ [line_refs (length old)])) self) =
        (match place_notes total notes position grid with
         | Ok _ => Ok tt
         | Raise e => Raise e
         end,
         mkWorld o (old ++ (enc_grid g ++ [line_refs (length old)])) self) /\
      match place_notes total notes position grid with
      | Ok g' => g = g'
      | Raise _ => True
      end.
Proof.
  induction notes as [|note rest IH]; intros position grid Hlen.
  - exists grid. cbn. auto.
  - cbn [fmap list_fmap place_notes_st place_notes].
    unfold st_bind at 1, st_lift at 1. cbn [as_note].
    unfold st_bind at 1, st_lift at 1.
    destruct (str (fret note)) as [text|e]; cbn [rbind];
      [|exists grid; auto].
    destruct (place_chars_st_sim old self o total (5 - string_ note)
                position text 0 grid Hlen) as (g1 & Hlen1 & Hrun & Hres).
    unfold st_bind at 1. rewrite Hrun.
    destruct (place_chars total (5 - string_ note) position 0 text grid)
      as [g1'|e]; cbn [rbind]; [|exists g1; auto].
    subst g1'. apply IH, Hlen1.
Qed.

Lemma rmap_enc_line (row : pystr) :
  rmap as_str (enc_line row) = Ok ((fun ch => [ch]) <$> row).
Proof.
  unfold enc_line. induction row as [|ch rest IH]; [reflexivity|].
  cbn [fmap list_fmap rmap as_str rbind]. rewrite IH. reflexivity.
Qed.

Lemma concat_singletons (row : pystr) :
  List.concat ((fun ch => [ch]) <$> row) = row.
Proof.
  induction row as [|ch rest IH]; [reflexivity|].
  cbn [fmap list_fmap List.concat app]. rewrite IH. reflexivity.
Qed.

Lemma output_line_st (old fresh : list (list pyval)) (self : instance)
    (o : stdout) (label row : pystr) (j k : nat) (texts : list pyval)
    (rest : list (pystr * pyval)) :
  fresh !! j = Some (enc_line row) ->
  fresh !! k = Some texts ->
  output_lines_st ((label, VRef (length old + j)%nat) :: rest)
    (length old + k)%nat (mkWorld o (old ++ fresh) self) =
  output_lines_st rest (length old + k)%nat
    (mkWorld o
       (old ++ <[k := texts ++ [VStr (label ++ row ++ lit "|")]]> fresh)
       self).
Proof.
  intros Hj Hk. cbn [output_lines_st].
  unfold st_bind at 1, st_lift at 1. cbn [as_ref].
  unfold st_bind at 1. rewrite items_of_fresh, Hj.
  cbn [default from_option id].
  unfold st_bind at 1, st_lift at 1. rewrite rmap_enc_line.
  unfold st_bind at 1. rewrite concat_singletons.
  rewrite (list_append_fresh _ _ _ _ _ _ _ Hk). reflexivity.
Qed.

(** Assembling the text over the store gives the text of the first
    embedding; it makes the list [output] and changes no other object. *)
Lemma build_output_st_sim (old : list (list pyval)) (self : instance)
    (o : stdout) (sc : list Z) (title : pystr) (grid : list pystr) :
  length grid = 6%nat ->
  exists texts : list pyval,
    build_output_st title (length old + 6)%nat
      (mkWorld o (old ++ (enc_grid grid ++ [line_refs (length old)])) self) =
      (Ok (build_output (pure_self self sc) title grid),
       mkWorld o
         (old ++ ((enc_grid grid ++ [line_refs (length old)]) ++ [texts]))
         self).
Proof.
  intros Hlen.
  destruct grid as [|r0 [|r1 [|r2 [|r3 [|r4 [|r5 [|]]]]]]]; try discriminate.
  cbn [enc_grid fmap list_fmap app].
  unfold build_output_st. unfold st_bind at 1. rewrite new_list_fresh.
  cbn [length app].
  unfold st_bind at 1.
  erewrite list_append_fresh by reflexivity.
  cbn [insert list_insert app].
  unfold st_bind at 1. cbn [get_self w_self].
  unfold st_bind at 1.
  erewrite list_append_fresh by reflexivity.
  cbn [insert list_insert app].
  unfold st_bind at 1.
  erewrite list_append_fresh by reflexivity.
  cbn [insert list_insert app].
  unfold st_bind at 1. rewrite (items_of_fresh _ _ _ _ 6).
  cbn [lookup list_lookup default from_option id].
  unfold line_refs. cbn [seq fmap list_fmap List.combine tuning_labels].
  unfold st_bind at 1.
  erewrite output_line_st by reflexivity.
  cbn [insert list_insert app].
  erewrite output_line_st by reflexivity.
  cbn [insert list_insert app].
  erewrite output_line_st by reflexivity.
  cbn [insert list_insert app].
  erewrite output_line_st by reflexivity.
  cbn [insert list_insert app].
  erewrite output_line_st by reflexivity.
  cbn [insert list_insert app].
  erewrite output_line_st by reflexivity.
  cbn [insert list_insert app output_lines_st st_ret].
  unfold st_bind at 1.
  erewrite list_append_fresh by reflexivity.
  cbn [insert list_insert app].
  unfold st_bind at 1. rewrite (items_of_fresh _ _ _ _ 7).
  cbn [lookup list_lookup default from_option id].
  unfold st_bind at 1, st_lift at 1.
  cbn [rmap as_str rbind st_ret].
  eexists. reflexivity.
Qed.

Lemma rmap_note_width (notes : list GuitarNote) :
  rmap note_width (VNote <$> notes) =
    Ok (List.map (fun note => duration note * 2) notes).
Proof.
  induction notes as [|note rest IH]; [reflexivity|].
  cbn [fmap list_fmap rmap List.map]. unfold note_width at 1.
  cbn [as_note rbind]. rewrite IH. reflexivity.
Qed.

(** [notes_to_tab] over the store returns what the first embedding
    returns on the notes the list object holds; it makes new objects and
    changes none of those that were there, the list of notes included. *)
Lemma notes_to_tab_st_sim (old : list (list pyval)) (self : instance)
    (o : stdout) (sc : list Z) (notes : loc) (ns : list GuitarNote)
    (title : pystr) :
  old !! notes = Some (VNote <$> ns) ->
  exists fresh : list (list pyval),
    notes_to_tab_st notes title (mkWorld o old self) =
      (notes_to_tab (pure_self self sc) ns title,
       mkWorld o (old ++ fresh) self).
Proof.
  intros Hnotes. unfold notes_to_tab_st.
  unfold st_bind at 1, items_of. cbn [w_heap]. rewrite Hnotes.
  cbn [default from_option id].
  destruct ns as [|n ns'].
  { exists []. cbn. rewrite app_nil_r. reflexivity. }
  cbn [notes_to_tab].
  set (ns := n :: ns') in *.
  assert (Hm : forall (A : Type) (a b : A),
             match VNote <$> ns with [] => a | _ :: _ => b end = b)
    by reflexivity.
  rewrite Hm. clear Hm.
  unfold st_bind at 1, st_lift at 1. rewrite rmap_note_width.
  cbv zeta. fold (total_length ns).
  replace (mkWorld o old self) with (mkWorld o (old ++ []) self)
    by (rewrite app_nil_r; reflexivity).
  unfold st_bind at 1. rewrite new_lines_fresh.
  unfold st_bind at 1. rewrite new_list_fresh.
  assert (Hheap : [] ++ replicate 6
                          (enc_line (replicate (Z.to_nat (total_length ns)) dash))
                  = enc_grid (blank_lines (total_length ns))).
  { unfold enc_grid, blank_lines. rewrite fmap_replicate. reflexivity. }
  assert (Hrefs : VRef <$> ((fun j => (length old + length (@nil (list pyval)) + j)%nat)
                              <$> seq 0 6)
                  = line_refs (length old)).
  { unfold line_refs. cbn [length seq fmap list_fmap].
    rewrite !(Nat.add_0_r (length old)). reflexivity. }
  assert (Hlen : length (blank_lines (total_length ns)) = 6%nat)
    by (unfold blank_lines; apply length_replicate).
  rewrite Hheap, Hrefs.
  replace (length (enc_grid (blank_lines (total_length ns)))) with 6%nat
    by (unfold enc_grid; rewrite length_fmap, Hlen; reflexivity).
  destruct (place_notes_st_sim old self o (total_length ns) ns 1
              (blank_lines (total_length ns)) Hlen)
    as (g & Hg & Hrun & Hres).
  unfold st_bind at 1. rewrite Hrun. unfold tab_grid.
  destruct (place_notes (total_length ns) ns 1 (blank_lines (total_length ns)))
    as [g'|e]; cbn [rbind].
  - subst g'.
    destruct (build_output_st_sim old self o sc title g Hg) as (texts & Hb).
    rewrite Hb. eexists. reflexivity.
  - eexists. reflexivity.
Qed.

(** [convert] over the store returns what the first embedding returns
    and prints what it prints; the objects it makes are new, and it
    changes neither an object that was there nor an attribute of the
    converter. *)
Lemma convert_st_sim (old : list (list pyval)) (self : instance)
    (o : stdout) (sc : list Z) (barcode : pystr) (use_power_chords : bool) :
  old !! a_scale self = Some (VInt <$> sc) ->
  exists fresh : list (list pyval),
    convert_st barcode use_power_chords (mkWorld o old self) =
      (fst (convert (pure_self self sc) barcode use_power_chords o),
       mkWorld (snd (convert (pure_self self sc) barcode use_power_chords o))
         (old ++ fresh) self).
Proof.
  intros Hscale.
  assert (Hlook : forall items : list pyval,
             (old ++ ([] ++ [items])) !! (length old + length (@nil (list pyval)))%nat
             = Some items).
  { intros items. cbn [app length]. rewrite Nat.add_0_r. apply lookup_last. }
  unfold convert_st, convert, io_bind.
  replace (mkWorld o old self) with (mkWorld o (old ++ []) self)
    by (rewrite app_nil_r; reflexivity).
  unfold st_bind at 1. destruct use_power_chords.
  - destruct (generate_power_chord_riff_st_sim old [] self o
                (pure_self self sc) barcode) as (items & Hrun & Hres).
    unfold st_bind at 1. rewrite Hrun. unfold io_lift at 1.
    destruct (generate_power_chord_riff (pure_self self sc) barcode)
      as [notes|e].
    + rewrite (Hres notes eq_refl).
      cbn [st_ret io_ret fst snd].
      destruct (notes_to_tab_st_sim (old ++ ([] ++ [VNote <$> notes])) self o
                  sc (length old + length (@nil (list pyval)))%nat notes
                  (lit "Power Chord Riff - " ++ barcode) (Hlook _))
        as (fresh & Hrun2).
      rewrite Hrun2. exists (([] ++ [VNote <$> notes]) ++ fresh).
      unfold io_lift, io_ret. cbn [fst snd app].
      rewrite <- app_assoc. reflexivity.
    + eexists. reflexivity.
  - destruct (barcode_to_notes_st_sim old [] self o sc barcode Hscale)
      as (items & Hrun & Hres).
    unfold st_bind at 1. rewrite Hrun.
    destruct (barcode_to_notes (pure_self self sc) barcode o)
      as [[notes|e] o'].
    + rewrite (Hres notes eq_refl).
      cbn [st_ret io_ret fst snd].
      destruct (notes_to_tab_st_sim (old ++ ([] ++ [VNote <$> notes])) self o'
                  sc (length old + length (@nil (list pyval)))%nat notes
                  (lit "Barcode Riff - " ++ barcode) (Hlook _))
        as (fresh & Hrun2).
      rewrite Hrun2. exists (([] ++ [VNote <$> notes]) ++ fresh).
      unfold io_lift, io_ret. cbn [fst snd app].
      rewrite <- app_assoc. reflexivity.
    + eexists. reflexivity.
Qed.

(** A converter made by [__init__] once the class is defined, whatever
    other objects the store holds: its scale list holds the intervals of
    its mode, and it stands for the converter of the first embedding. *)
Lemma init_st_agrees (root_note : pystr) (root_fret : Z)
    (scale_mode : ScaleMode) (out : stdout) (others : list (list pyval)) :
  let w := init_st root_note root_fret scale_mode out (class_heap ++ others) in
  w_heap w !! a_scale (w_self w) = Some (VInt <$> SCALES scale_mode) /\
  pure_self (w_self w) (SCALES scale_mode) =
    init root_note root_fret scale_mode.
Proof. destruct scale_mode; split; reflexivity. Qed.

(** C9: [convert] and [notes_to_tab] keep nothing from one call to the
    next.  For a converter whose scale list holds integers, a call of
    [convert] leaves the attributes of the converter and every list
    object that existed, the scale list it shares with the class
    included, as they were; a second call with the same barcode and flag,
    made in the world the first one left, has the same outcome, text or
    exception; so has a call on any converter with the same
    configuration, whatever else its world holds and whatever has been
    printed; and that outcome is the one of the first embedding.
    Likewise for [notes_to_tab] on a list of notes: the list and every
    other object are left as they were, a second call on the same list
    and title has the same outcome, and so has a call on any list holding
    the same notes, for a converter with the same root note and scale
    mode. *)
Theorem convert_repeatable (w : world) :
  (forall (sc : list Z) (barcode : pystr) (use_power_chords : bool),
     w_heap w !! a_scale (w_self w) = Some (VInt <$> sc) ->
     let first := convert_st barcode use_power_chords w in
     unchanged w (snd first) /\
     fst (convert_st barcode use_power_chords (snd first)) = fst first /\
     (forall w' : world,
        same_configuration w w' ->
        fst (convert_st barcode use_power_chords w') = fst first) /\
     fst first =
       fst (convert (pure_self (w_self w) sc) barcode use_power_chords
              (w_out w))) /\
  (forall (notes : loc) (ns : list GuitarNote) (title : pystr),
     w_heap w !! notes = Some (VNote <$> ns) ->
     let first := notes_to_tab_st notes title w in
     unchanged w (snd first) /\
     fst (notes_to_tab_st notes title (snd first)) = fst first /\
     (forall (w' : world) (notes' : loc),
        a_root_note (w_self w') = a_root_note (w_self w) ->
        a_scale_mode (w_self w') = a_scale_mode (w_self w) ->
        w_heap w' !! notes' = Some (VNote <$> ns) ->
        fst (notes_to_tab_st notes' title w') = fst first) /\
     forall scale : list Z,
       fst first = notes_to_tab (pure_self (w_self w) scale) ns title).
Proof.
  destruct w as [o old self]. cbn [w_heap w_self w_out]. split.
  - intros sc barcode flag Hscale. cbv zeta.
    destruct (convert_st_sim old self o sc barcode flag Hscale)
      as (fresh & Hrun).
    rewrite Hrun. cbn [fst snd]. repeat split.
    + exists fresh. reflexivity.
    + destruct (convert_st_sim (old ++ fresh) self
                  (snd (convert (pure_self self sc) barcode flag o)) sc
                  barcode flag (lookup_app_l_Some _ _ _ _ Hscale))
        as (fresh' & Hrun').
      rewrite Hrun'. cbn [fst]. apply convert_result_ignores_stdout.
    + intros [o' old' self'] (Hnote & Hfret & Hmode & Hsc).
      cbn [w_heap w_self] in *. rewrite Hscale in Hsc.
      destruct (convert_st_sim old' self' o' sc barcode flag Hsc)
        as (fresh' & Hrun').
      rewrite Hrun'. cbn [fst]. unfold pure_self.
      rewrite Hnote, Hfret, Hmode. apply convert_result_ignores_stdout.
  - intros notes ns title Hnotes. cbv zeta.
    destruct (notes_to_tab_st_sim old self o [] notes ns title Hnotes)
      as (fresh & Hrun).
    rewrite Hrun. cbn [fst snd]. repeat split.
    + exists fresh. reflexivity.
    + destruct (notes_to_tab_st_sim (old ++ fresh) self o [] notes ns title
                  (lookup_app_l_Some _ _ _ _ Hnotes)) as (fresh' & Hrun').
      rewrite Hrun'. reflexivity.
    + intros [o' old' self'] notes' Hnote Hmode Hnotes'.
      cbn [w_heap w_self] in *.
      destruct (notes_to_tab_st_sim old' self' o' [] notes' ns title Hnotes')
        as (fresh' & Hrun').
      rewrite Hrun'. cbn [fst].
      unfold notes_to_tab, build_output, pure_self.
      cbn [scale_mode root_note]. rewrite Hnote, Hmode. reflexivity.
Qed.

Lemma convert_repeatable_witness :
  (let w := init_st (lit "E") 0 MINOR_PENTATONIC [] class_heap in
   fst (convert_st (lit "12") false (snd (convert_st (lit "12") false w))) =
   fst (convert_st (lit "12") false w)) /\
  (let w :=
     init_st (lit "E") 0 MINOR_PENTATONIC []
       (class_heap ++ [[VNote (mkNote 0 3 1)]]) in
   fst (notes_to_tab_st 5%nat (lit "Riff")
          (snd (notes_to_tab_st 5%nat (lit "Riff") w)))
   = fst (notes_to_tab_st 5%nat (lit "Riff") w)).
Proof.
  split.
  - exact (proj1 (proj2
             (proj1 (convert_repeatable
                       (init_st (lit "E") 0 MINOR_PENTATONIC [] class_heap))
                (SCALES MINOR_PENTATONIC) (lit "12") false eq_refl))).
  - exact (proj1 (proj2
             (proj2 (convert_repeatable
                       (init_st (lit "E") 0 MINOR_PENTATONIC []
                          (class_heap ++ [[VNote (mkNote 0 3 1)]])))
                5%nat [mkNote 0 3 1] (lit "Riff") eq_refl))).
Defined.
